(** * The CircuitPython Jupyter kernel: REPL session protocol

    A shallow embedding of [circuitpython_kernel/kernel.py] (class
    [CircuitPyKernel]) and the properties of its serial REPL protocol:
    line submission, response framing, magic commands, error conversion
    in [do_execute], [_eval] and [do_complete].

    Python [str] values are lists of Unicode code points, [bytes] and
    [bytearray] values are lists of [byte]s.  The board (module [board.py]),
    [time.sleep] and the notebook's output channel are the kernel's
    environment: every call to them is an event of the run. *)

From Stdlib Require Import List NArith ZArith Bool Lia.
From Stdlib Require Import Strings.String Strings.Ascii Strings.Byte.
Import ListNotations.
Local Open Scope list_scope.

(** ** Python values: [str], [bytes] *)

Module Py.

Abbreviation codepoint := N.
Abbreviation str := (list codepoint).
Abbreviation bytes := (list byte).

(** An ASCII literal as a [str] and as a [bytes] object. *)
Definition s (lit : string) : str :=
  map N_of_ascii (list_ascii_of_string lit).
Definition b (lit : string) : bytes :=
  map byte_of_ascii (list_ascii_of_string lit).

(** The exceptions that the kernel raises, catches or lets through. *)
Inductive exn :=
| BoardError (msg : str)
| SerialException (msg : str)
| KeyboardInterrupt
| ValueError
| OverflowError
| UnicodeEncodeError
| SyntaxError
| TypeError
| AttributeError
| OtherError (msg : str).

(** The result of a call that returns or raises. *)
Inductive res (A : Type) :=
| Ok (a : A)
| Err (e : exn).
Arguments Ok {A} a.
Arguments Err {A} e.

(** *** Sequences *)

Section Sequences.
Context {A : Type} (eqb : A -> A -> bool).

(** [x.startswith(p)] *)
Fixpoint startswith (x p : list A) {struct p} : bool :=
  match p, x with
  | [], _ => true
  | d :: p', c :: x' => eqb c d && startswith x' p'
  | _ :: _, [] => false
  end.

(** [x.endswith(t)] *)
Definition endswith (x t : list A) : bool :=
  startswith (rev x) (rev t).

(** [sep in x] for a separator of length one. *)
Definition contains (sep : A) (x : list A) : bool :=
  existsb (fun c => eqb c sep) x.

(** [x.count(sep)] for a separator of length one. *)
Definition count (sep : A) (x : list A) : nat :=
  List.length (filter (fun c => eqb c sep) x).

(** [x.split(sep)] and [x.rsplit(sep)] without [maxsplit], for a
    separator of length one: both give the same list of fields. *)
Fixpoint split (sep : A) (x : list A) : list (list A) :=
  match x with
  | [] => [[]]
  | c :: x' =>
      if eqb c sep then [] :: split sep x'
      else match split sep x' with
           | [] => [[c]]
           | w :: ws => (c :: w) :: ws
           end
  end.

(** [x.split(sep, 1)]: [Some (before, after)] at the first [sep], and
    [None] for the one-element list that Python returns without [sep]. *)
Fixpoint split_once (sep : A) (x : list A) : option (list A * list A) :=
  match x with
  | [] => None
  | c :: x' =>
      if eqb c sep then Some ([], x')
      else match split_once sep x' with
           | Some (u, v) => Some (c :: u, v)
           | None => None
           end
  end.
End Sequences.

(** [x[0:-2]] *)
Definition drop_last2 {A} (x : list A) : list A :=
  firstn (List.length x - 2) x.

(** [x[:n]] for a Python integer [n]; a negative [n] counts from the end. *)
Definition slice_to {A} (x : list A) (n : Z) : list A :=
  if (n <? 0)%Z
  then firstn (Z.to_nat (Z.max 0 (Z.of_nat (List.length x) + n))) x
  else firstn (Z.to_nat n) x.

(** [len(x)] *)
Definition len {A} (x : list A) : Z := Z.of_nat (List.length x).

(** *** Character classes *)

Definition in_range (lo hi c : N) : bool := ((lo <=? c) && (c <=? hi))%N.

(** [str.isspace] on one code point. *)
Definition isspace (c : codepoint) : bool :=
  in_range 0x09 0x0D c || in_range 0x1C 0x20 c || (c =? 0x85)%N
  || (c =? 0xA0)%N || (c =? 0x1680)%N || in_range 0x2000 0x200A c
  || (c =? 0x2028)%N || (c =? 0x2029)%N || (c =? 0x202F)%N
  || (c =? 0x205F)%N || (c =? 0x3000)%N.

(** The line boundaries of [str.splitlines]. *)
Definition islinebreak (c : codepoint) : bool :=
  in_range 0x0A 0x0D c || in_range 0x1C 0x1E c || (c =? 0x85)%N
  || (c =? 0x2028)%N || (c =? 0x2029)%N.

Definition CR : codepoint := 0x0D%N.
Definition LF : codepoint := 0x0A%N.

Fixpoint dropwhile {A} (p : A -> bool) (x : list A) : list A :=
  match x with
  | [] => []
  | c :: x' => if p c then dropwhile p x' else x
  end.

(** [x.strip()] *)
Definition strip (x : str) : str :=
  rev (dropwhile isspace (rev (dropwhile isspace x))).

(** [x.splitlines(False)]: [cur] is the line being read, reversed.  A line
    ends at a line boundary, CR LF counting as one; the text after the last
    boundary is a line only when it is not empty. *)
Fixpoint splitlines_from (cur : str) (x : str) : list str :=
  match x with
  | [] => match cur with [] => [] | _ => [rev cur] end
  | c :: x' =>
      if islinebreak c then
        if (c =? CR)%N then
          match x' with
          | d :: x'' =>
              if (d =? LF)%N then rev cur :: splitlines_from [] x''
              else rev cur :: splitlines_from [] x'
          | [] => rev cur :: splitlines_from [] x'
          end
        else rev cur :: splitlines_from [] x'
      else splitlines_from (c :: cur) x'
  end.

Definition splitlines (x : str) : list str := splitlines_from [] x.

(** *** UTF-8 *)

Definition byte_of (n : N) : byte :=
  match Byte.of_N (n mod 256) with
  | Some c => c
  | None => x00
  end.

(** [x.encode('utf-8')]: a surrogate code point cannot be encoded.  The
    code points of a [str] are at most 0x10FFFF. *)
Fixpoint encode_points (x : str) : option bytes :=
  match x with
  | [] => Some []
  | c :: x' =>
      match encode_points x' with
      | None => None
      | Some rest =>
          if (c <? 0x80)%N then Some (byte_of c :: rest)
          else if (c <? 0x800)%N then
            Some (byte_of (0xC0 + c / 64) :: byte_of (0x80 + c mod 64) :: rest)
          else if in_range 0xD800 0xDFFF c then None
          else if (c <? 0x10000)%N then
            Some (byte_of (0xE0 + c / 4096)
                  :: byte_of (0x80 + (c / 64) mod 64)
                  :: byte_of (0x80 + c mod 64) :: rest)
          else
            Some (byte_of (0xF0 + c / 262144)
                  :: byte_of (0x80 + (c / 4096) mod 64)
                  :: byte_of (0x80 + (c / 64) mod 64)
                  :: byte_of (0x80 + c mod 64) :: rest)
      end
  end.

Definition encode (x : str) : res bytes :=
  match encode_points x with
  | Some d => Ok d
  | None => Err UnicodeEncodeError
  end.

Definition REPLACEMENT : codepoint := 0xFFFD%N.

Definition is_continuation (c : N) : bool := in_range 0x80 0xBF c.

(** [d.decode('utf-8', 'replace')]: every maximal ill-formed part of the
    input becomes one U+FFFD, and decoding goes on after it. *)
Fixpoint decode (d : bytes) : str :=
  match d with
  | [] => []
  | b1 :: r1 =>
    let c1 := Byte.to_N b1 in
    if (c1 <? 0x80)%N then c1 :: decode r1
    else if (c1 <? 0xC2)%N then REPLACEMENT :: decode r1
    else if (c1 <? 0xE0)%N then
      match r1 with
      | [] => [REPLACEMENT]
      | b2 :: r2 =>
        let c2 := Byte.to_N b2 in
        if is_continuation c2
        then ((c1 - 0xC0) * 64 + (c2 - 0x80))%N :: decode r2
        else REPLACEMENT :: decode r1
      end
    else if (c1 <? 0xF0)%N then
      match r1 with
      | [] => [REPLACEMENT]
      | b2 :: r2 =>
        let c2 := Byte.to_N b2 in
        if negb (is_continuation c2)
           || (if (c2 <? 0xA0)%N then (c1 =? 0xE0)%N else (c1 =? 0xED)%N)
        then REPLACEMENT :: decode r1
        else
          match r2 with
          | [] => [REPLACEMENT]
          | b3 :: r3 =>
            let c3 := Byte.to_N b3 in
            if is_continuation c3
            then ((c1 - 0xE0) * 4096 + (c2 - 0x80) * 64 + (c3 - 0x80))%N
                 :: decode r3
            else REPLACEMENT :: decode r2
          end
      end
    else if (c1 <? 0xF5)%N then
      match r1 with
      | [] => [REPLACEMENT]
      | b2 :: r2 =>
        let c2 := Byte.to_N b2 in
        if negb (is_continuation c2)
           || (if (c2 <? 0x90)%N then (c1 =? 0xF0)%N else (c1 =? 0xF4)%N)
        then REPLACEMENT :: decode r1
        else
          match r2 with
          | [] => [REPLACEMENT]
          | b3 :: r3 =>
            let c3 := Byte.to_N b3 in
            if negb (is_continuation c3) then REPLACEMENT :: decode r2
            else
              match r3 with
              | [] => [REPLACEMENT]
              | b4 :: r4 =>
                let c4 := Byte.to_N b4 in
                if is_continuation c4
                then ((c1 - 0xF0) * 262144 + (c2 - 0x80) * 4096
                      + (c3 - 0x80) * 64 + (c4 - 0x80))%N :: decode r4
                else REPLACEMENT :: decode r3
              end
          end
      end
    else REPLACEMENT :: decode r1
  end.

End Py.


Import Py.

#[local] Unset Elimination Schemes.

(** A value that [ast.literal_eval] can return.  [F] is the type of
    Python floats; a set and a dict list their elements in iteration
    order. *)
Inductive pyval (F : Type) :=
| PyNone
| PyBool (v : bool)
| PyInt (n : Z)
| PyFloat (f : F)
| PyComplex (re im : F)
| PyStr (x : str)
| PyBytes (d : bytes)
| PyList (l : list (pyval F))
| PyTuple (l : list (pyval F))
| PySet (l : list (pyval F))
| PyDict (items : list (pyval F * pyval F)).
Arguments PyNone {F}.
Arguments PyBool {F} v.
Arguments PyInt {F} n.
Arguments PyFloat {F} f.
Arguments PyComplex {F} re im.
Arguments PyStr {F} x.
Arguments PyBytes {F} d.
Arguments PyList {F} l.
Arguments PyTuple {F} l.
Arguments PySet {F} l.
Arguments PyDict {F} items.

#[local] Set Elimination Schemes.

(** ** The environment of the kernel *)

(** What the kernel uses of the Python runtime without defining it:
    floats ([float(x)], the literals [0.06] and [0.1], the delays that
    [time.sleep] rejects), the Unicode table behind [\w] outside ASCII,
    and [ast.literal_eval]. *)
Class Runtime := {
  pyfloat : Type;
  (** [float(x)]; [None] when it raises [ValueError] *)
  float_of_str : str -> option pyfloat;
  float_0_06 : pyfloat;
  float_0_1 : pyfloat;
  (** what [time.sleep(secs)] raises: [ValueError] for a negative delay
      and for NaN, [OverflowError] for a delay too large for the clock;
      [None] when it returns *)
  sleep_error : pyfloat -> option exn;
  (** [str.isalnum] on a code point above 127 *)
  unicode_isalnum : codepoint -> bool;
  literal_eval : str -> res (pyval pyfloat);
}.

(** A call that leaves the kernel: a method of [self.board], or
    [time.sleep]. *)
Inductive call `{Runtime} :=
| Connect
| Write (data : bytes)
| ReadUntil (delim : bytes)
| ReadAll
| SoftReset
| Close
| Sleep (secs : pyfloat).

(** The board and the clock: a call is answered from the state [dev] of
    the environment, by returning (bytes for the two reads, nothing
    otherwise) or by raising. *)
Class Board `{Runtime} (dev : Type) :=
  respond : call -> dev -> res bytes * dev.

(** What a run does that can be seen from outside: its calls with their
    answers, and the messages that [send_response] puts on the notebook's
    IOPub channel. *)
Inductive event `{Runtime} :=
| Io (c : call) (r : res bytes)
| Stream (name text : str).

(** ** The kernel *)

(** How a method ends: it returns, it raises, or the model's bound on the
    iterations of the two polling loops is used up. *)
Inductive outcome (A : Type) :=
| Ret (a : A)
| Raise (e : exn)
| OutOfFuel.
Arguments Ret {A} a.
Arguments Raise {A} e.
Arguments OutOfFuel {A}.

Declare Scope kernel_scope.
Delimit Scope kernel_scope with kernel.

Section Kernel.
Context `{RT : Runtime} {dev : Type} `{BD : !Board dev}.

(** The attributes of [CircuitPyKernel] that the methods read or write. *)
Record kernel := {
  board : dev;
  upload_delay : pyfloat;
  execution_count : Z;
}.

Definition with_board (k : kernel) (d : dev) : kernel :=
  {| board := d; upload_delay := upload_delay k;
     execution_count := execution_count k |}.

Definition with_upload_delay (k : kernel) (f : pyfloat) : kernel :=
  {| board := board k; upload_delay := f;
     execution_count := execution_count k |}.

Record run (A : Type) := {
  events : list event;
  result : outcome A;
  final : kernel;
}.
Arguments events {A} r.
Arguments result {A} r.
Arguments final {A} r.

Definition M (A : Type) := kernel -> run A.

Definition ret {A} (a : A) : M A :=
  fun k => {| events := []; result := Ret a; final := k |}.

Definition raise {A} (e : exn) : M A :=
  fun k => {| events := []; result := Raise e; final := k |}.

Definition out_of_fuel {A} : M A :=
  fun k => {| events := []; result := OutOfFuel; final := k |}.

Definition bind {A B} (m : M A) (f : A -> M B) : M B :=
  fun k =>
    let r := m k in
    match result r with
    | Ret a =>
        let r' := f a (final r) in
        {| events := events r ++ events r'; result := result r';
           final := final r' |}
    | Raise e => {| events := events r; result := Raise e; final := final r |}
    | OutOfFuel => {| events := events r; result := OutOfFuel; final := final r |}
    end.

(** [try: m except ...: h e]; [h] returns [None] for an exception that no
    clause names. *)
Definition try_except {A} (m : M A) (h : exn -> option (M A)) : M A :=
  fun k =>
    let r := m k in
    match result r with
    | Raise e =>
        match h e with
        | Some handler =>
            let r' := handler (final r) in
            {| events := events r ++ events r'; result := result r';
               final := final r' |}
        | None => r
        end
    | _ => r
    end.

Local Notation "x <- m ;; f" := (bind m (fun x => f))
  (at level 61, m at next level, right associativity).
Local Notation "m ;; f" := (bind m (fun _ => f))
  (at level 61, right associativity).

Definition lift {A} (r : res A) : M A :=
  match r with
  | Ok a => ret a
  | Err e => raise e
  end.

(** A call to the environment. *)
Definition io (c : call) : M bytes :=
  fun k =>
    let (r, d) := respond c (board k) in
    {| events := [Io c r];
       result := match r with Ok x => Ret x | Err e => Raise e end;
       final := with_board k d |}.

(** [self.send_response(self.iopub_socket, 'stream', content)] *)
Definition send_response (name text : str) : M unit :=
  fun k => {| events := [Stream name text]; result := Ret tt; final := k |}.

Definition get_upload_delay : M pyfloat :=
  fun k => {| events := []; result := Ret (upload_delay k); final := k |}.

Definition set_upload_delay (f : pyfloat) : M unit :=
  fun k => {| events := []; result := Ret tt;
              final := with_upload_delay k f |}.

Definition get_execution_count : M Z :=
  fun k => {| events := []; result := Ret (execution_count k); final := k |}.

(** *** [send_stdout], [send_stderr] *)

Definition is_empty {A} (x : list A) : bool :=
  match x with [] => true | _ => false end.

Definition send_stdout (msg : str) (silent : bool) : M unit :=
  if silent || is_empty msg then ret tt
  else send_response (s "stdout") msg.

Definition send_stderr (msg : str) (silent : bool) : M unit :=
  if silent || is_empty msg then ret tt
  else send_response (s "stderr") msg.

(** *** [is_magic] *)

Definition SPACE : codepoint := 32%N.

(** The body of the [try] in [is_magic]: the bare [except] passes over
    the [IndexError] of [s[1]] and the [ValueError] of [float]. *)
Definition parse_upload_delay (line : str) : option pyfloat :=
  match nth_error (split N.eqb SPACE line) 1 with
  | Some arg => float_of_str arg
  | None => None
  end.

Definition is_magic (line : str) : M bool :=
  if startswith N.eqb line (s "%softreset") then
    io SoftReset ;; ret true
  else if startswith N.eqb line (s "%upload_delay") then
    match parse_upload_delay line with
    | Some f => set_upload_delay f ;; ret true
    | None => ret true
    end
  else ret false.

(** *** [run_code] *)

Definition CRLF : bytes := [x0d; x0a].
Definition CTRL_D : byte := x04.
Definition TERMINATOR : bytes := [x04; x3e].

(** The body of the [for] loop. *)
Definition send_line (line : str) : M unit :=
  magic <- is_magic line ;;
  if magic then ret tt
  else
    data <- lift (encode line) ;;
    io (Write data) ;;
    io (Write CRLF) ;;
    delay <- get_upload_delay ;;
    io (Sleep delay) ;;
    ret tt.

Fixpoint send_lines (lines : list str) : M unit :=
  match lines with
  | [] => ret tt
  | line :: rest => send_line line ;; send_lines rest
  end.

(** [while not result.endswith(b'\x04>')] *)
Fixpoint await_terminator (fuel : nat) (result : bytes) : M bytes :=
  if endswith Byte.eqb result TERMINATOR then ret result
  else
    match fuel with
    | O => out_of_fuel
    | S fuel' =>
        more <- io ReadAll ;;
        io (Sleep float_0_1) ;;
        await_terminator fuel' (result ++ more)
    end.

(** [out, err = x.split(b'\x04', 1)] *)
Definition split_out_err (x : bytes) : M (bytes * bytes) :=
  match split_once Byte.eqb CTRL_D x with
  | Some p => ret p
  | None => raise ValueError
  end.

(** [while True]: the value is [retval] when the loop breaks. *)
Fixpoint read_result (fuel : nat) (retval : bytes) (silent : bool)
  : M bytes :=
  match fuel with
  | O => out_of_fuel
  | S fuel' =>
      result <- io ReadAll ;;
      if contains Byte.eqb CTRL_D result then
        result <- await_terminator fuel' result ;;
        let result := drop_last2 result in
        let retval := retval ++ result in
        p <- split_out_err result ;;
        send_stdout (decode (fst p)) silent ;;
        send_stderr (decode (snd p)) silent ;;
        ret retval
      else
        let retval := retval ++ result in
        send_stdout (decode result) silent ;;
        io (Sleep float_0_1) ;;
        read_result fuel' retval silent
  end.

(** Connecting and sending the code (the [for] loop). *)
Definition send_code (code : str) : M unit :=
  io Connect ;;
  send_lines (splitlines code).

(** From the swallowed response head to the returned pair. *)
Definition read_response (fuel : nat) (silent : bool) : M (str * str) :=
  io (ReadUntil (b "OK")) ;;
  retval <- read_result fuel [] silent ;;
  p <- split_out_err retval ;;
  ret (decode (fst p), decode (snd p)).

Definition run_code (fuel : nat) (code : str) (silent : bool)
  : M (str * str) :=
  send_code code ;;
  io (Write [x0d; x04]) ;;
  read_response fuel silent.

(** *** [do_execute] *)

Record execute_reply := {
  status : str;
  reply_execution_count : Z;
  payload : list (pyval pyfloat);
  user_expressions : list (str * pyval pyfloat);
}.

Definition ok_reply : M execute_reply :=
  n <- get_execution_count ;;
  ret {| status := s "ok"; reply_execution_count := n; payload := [];
         user_expressions := [] |}.

Definition execute_handler (e : exn) : option (M unit) :=
  match e with
  | BoardError msg | SerialException msg =>
      Some (send_stderr (s "No connection to CiruitPython VM: " ++ msg) false)
  | KeyboardInterrupt => Some (send_stderr (s "Keyboard Interrupt") false)
  | _ => None
  end.

Definition do_execute (fuel : nat) (code : str) (silent : bool)
  : M execute_reply :=
  if is_empty (strip code) then ok_reply
  else
    try_except (run_code fuel code silent ;; ret tt) execute_handler ;;
    ok_reply.

(** *** [_eval] *)

Definition eval_handler (e : exn) : option (M (str * str)) :=
  match e with
  | BoardError msg | SerialException msg =>
      Some (ret ([], s "Lost connection to CiruitPython VM: " ++ msg))
  | _ => None
  end.

Definition _eval (fuel : nat) (expr : str) : M (pyval pyfloat) :=
  p <- try_except (run_code fuel (s "print(" ++ expr ++ s ")") true)
                  eval_handler ;;
  lift (literal_eval (fst p)).

(** *** [do_shutdown] *)

Definition do_shutdown (restart : bool) : M unit :=
  io (Write [x0d; x02]) ;;
  io Close ;;
  ret tt.

(** *** [do_complete] *)

Definition DOT : codepoint := 46%N.
Definition UNDERSCORE : codepoint := 95%N.

(** [\w] *)
Definition is_word (c : codepoint) : bool :=
  if (c <? 128)%N
  then in_range 48 57 c || in_range 65 90 c || in_range 97 122 c
       || (c =? UNDERSCORE)%N
  else unicode_isalnum c.

(** Whether [(\w+\.)*(\w+)?$] matches all of [x], from its first
    character on.  [in_word] says that the last character read was a
    [\w], so that a [.] may follow; [$] matches at the end of the text
    and before a newline that ends it. *)
Fixpoint dotted_from (in_word : bool) (x : str) : bool :=
  match x with
  | [] => true
  | c :: x' =>
      if is_word c then dotted_from true x'
      else if (c =? DOT)%N && in_word then dotted_from false x'
      else (c =? LF)%N && is_empty x'
  end.

(** The text matched: all of [x] but the newline that [$] stopped at. *)
Definition matched_text (x : str) : str :=
  if endswith N.eqb x [LF] then removelast x else x.

(** [re.search(r'(\w+\.)*(\w+)?$', x)]: the match at the first position
    that has one, as [match.group()]. *)
Fixpoint re_search (x : str) : option str :=
  if dotted_from false x then Some (matched_text x)
  else
    match x with
    | [] => None
    | _ :: x' => re_search x'
    end.

Record complete_reply := {
  matches : list str;
  cursor_start : Z;
  cursor_end : Z;
  metadata : list (str * pyval pyfloat);
  complete_status : str;
}.

(** [for n in names] *)
Definition iterate (names : pyval pyfloat) : res (list (pyval pyfloat)) :=
  match names with
  | PyList l | PyTuple l | PySet l => Ok l
  | PyDict items => Ok (map fst items)
  | PyStr x => Ok (map (fun c => PyStr [c]) x)
  | PyBytes d => Ok (map (fun c => PyInt (Z.of_N (Byte.to_N c))) d)
  | _ => Err TypeError
  end.

(** [[n for n in names if n.startswith(prefix)]] over the elements of
    [names]. *)
Fixpoint select (names : list (pyval pyfloat)) (prefix : str)
  : res (list str) :=
  match names with
  | [] => Ok []
  | PyStr n :: rest =>
      match select rest prefix with
      | Ok l => Ok (if startswith N.eqb n prefix then n :: l else l)
      | Err e => Err e
      end
  | PyBytes _ :: _ => Err TypeError
  | _ :: _ => Err AttributeError
  end.

Definition complete_with (names : pyval pyfloat) (prefix : str)
           (cursor_pos : Z) : M complete_reply :=
  l <- lift (iterate names) ;;
  found <- lift (select l prefix) ;;
  ret {| matches := found;
         cursor_start := cursor_pos - len prefix;
         cursor_end := cursor_pos;
         metadata := [];
         complete_status := s "ok" |}.

Definition do_complete (fuel : nat) (code : str) (cursor_pos : Z)
  : M complete_reply :=
  let code := slice_to code cursor_pos in
  match re_search code with
  | Some prefix =>
      if contains N.eqb DOT prefix then
        match split N.eqb DOT prefix with
        | [obj; prefix] =>
            names <- _eval fuel (s "dir(" ++ obj ++ s ")") ;;
            complete_with names prefix cursor_pos
        | _ => raise ValueError
        end
      else
        names <- _eval fuel (s "dir()") ;;
        complete_with names prefix cursor_pos
  | None =>
      ret {| matches := [];
             cursor_start := cursor_pos;
             cursor_end := cursor_pos;
             metadata := [];
             complete_status := s "ok" |}
  end.

End Kernel.

Arguments events {RT dev A} r.
Arguments result {RT dev A} r.
Arguments final {RT dev A} r.

Notation "x <- m ;; f" := (bind m (fun x => f))
  (at level 61, m at next level, right associativity) : kernel_scope.
Notation "m ;; f" := (bind m (fun _ => f))
  (at level 61, right associativity) : kernel_scope.

(** ** What a run shows *)

Section Observations.
Context `{RT : Runtime}.

(** The data of the [write] calls of a run, in order. *)
Definition writes (evs : list event) : list bytes :=
  flat_map (fun ev => match ev with Io (Write d) _ => [d] | _ => [] end) evs.

(** The calls of a run, in order. *)
Definition calls (evs : list event) : list call :=
  flat_map (fun ev => match ev with Io c _ => [c] | _ => [] end) evs.

(** The bytes that the [read_all] calls of a run returned, in order. *)
Definition received (evs : list event) : bytes :=
  flat_map (fun ev => match ev with Io ReadAll (Ok d) => d | _ => [] end)
           evs.

Definition is_write (ev : event) : bool :=
  match ev with Io (Write _) _ => true | _ => false end.

Definition is_read (ev : event) : bool :=
  match ev with Io ReadAll _ | Io (ReadUntil _) _ => true | _ => false end.

Definition is_stream (ev : event) : bool :=
  match ev with Stream _ _ => true | _ => false end.

(** A line that [is_magic] handles. *)
Definition magic (line : str) : bool :=
  startswith N.eqb line (s "%softreset")
  || startswith N.eqb line (s "%upload_delay").

(** The bytes of a line on the wire. *)
Definition utf8 (line : str) : bytes :=
  match encode_points line with
  | Some d => d
  | None => []
  end.

(** The writes that send [lines]: each line, then CR LF. *)
Definition wire (lines : list str) : list bytes :=
  flat_map (fun line => [utf8 line; CRLF]) lines.

Definition prefix_of {A} (x y : list A) : Prop :=
  exists rest, y = x ++ rest.

(** Of the text that [do_complete] matched: the name being typed, which
    is the part after the dot, or all of it without a dot. *)
Definition name_part (prefix : str) : str :=
  last (split N.eqb DOT prefix) [].

(** The expression that [do_complete] evaluates on the board. *)
Definition query (prefix : str) : str :=
  if contains N.eqb DOT prefix
  then s "dir(" ++ hd [] (split N.eqb DOT prefix) ++ s ")"
  else s "dir()".

(** The text that [do_execute] writes on stderr for an exception that
    it catches. *)
Inductive reported : exn -> str -> Prop :=
| reported_board (msg : str) :
    reported (BoardError msg) (s "No connection to CiruitPython VM: " ++ msg)
| reported_serial (msg : str) :
    reported (SerialException msg)
             (s "No connection to CiruitPython VM: " ++ msg)
| reported_interrupt :
    reported KeyboardInterrupt (s "Keyboard Interrupt").

(** The run [q] is the run [l] without its stream messages. *)
Definition quiet_of {dev A : Type} (q l : @run RT dev A) : Prop :=
  result q = result l
  /\ final q = final l
  /\ events q = filter (fun ev => negb (is_stream ev)) (events l).
End Observations.

(** *** Texts and messages *)

(** A code point that UTF-8 encodes: at most 0x10FFFF and no surrogate. *)
Definition scalar (c : codepoint) : bool :=
  (c <=? 0x10FFFF)%N && negb (in_range 0xD800 0xDFFF c).

(** A character that is no line boundary. *)
Definition inline (c : codepoint) : bool := negb (islinebreak c).

(** A character of a dotted name. *)
Definition dotted_char `{Runtime} (c : codepoint) : bool :=
  is_word c || (c =? DOT)%N.

(** The message that [send_stdout] and [send_stderr] put on the channel
    when they are not silent: none for an empty text. *)
Definition stream_of `{Runtime} (name text : str) : list event :=
  if is_empty text then [] else [Stream name text].

(** A stream message as the notebook shows it: on stdout or stderr, with
    a text that is not empty. *)
Definition shown `{Runtime} (ev : event) : Prop :=
  match ev with
  | Stream name text =>
      (name = s "stdout" \/ name = s "stderr") /\ text <> []
  | Io _ _ => True
  end.

Local Open Scope kernel_scope.

(** ** A simulated board and a sample runtime *)

(** The serial line of the simulated board: the bytes of the device's
    response in the batches in which they arrive, and at most one call
    that fails (the calls are counted from 0). *)
Record sim := {
  pending : list bytes;
  fault : option (nat * exn);
}.

(** The number of bytes of [x] up to the end of the first [delim]. *)
Fixpoint through (delim x : bytes) : option nat :=
  if startswith Byte.eqb x delim then Some (List.length delim)
  else
    match x with
    | [] => None
    | _ :: x' => option_map S (through delim x')
    end.

(** The batches left when [n] bytes have been read. *)
Fixpoint drop_bytes (n : nat) (batches : list bytes) : list bytes :=
  match batches with
  | [] => []
  | x :: rest =>
      if (n <=? List.length x)%nat then skipn n x :: rest
      else drop_bytes (n - List.length x) rest
  end.

(** Modelled from the spec: the transport of [board.py], which is not
    part of the sources.  [read_all] returns the bytes that have arrived
    and nothing when none has; [read_until] reads through the delimiter,
    or all there is when the delimiter never comes; the other methods of
    the board return nothing.  [time.sleep] leaves the line as it is, and
    raises for a delay that the runtime rejects. *)
Definition sim_answer `{Runtime} (c : call) (line : list bytes)
  : res bytes * list bytes :=
  match c with
  | ReadAll =>
      match line with
      | [] => (Ok [], [])
      | x :: rest => (Ok x, rest)
      end
  | ReadUntil delim =>
      match through delim (List.concat line) with
      | Some n => (Ok (firstn n (List.concat line)), drop_bytes n line)
      | None => (Ok (List.concat line), [])
      end
  | Sleep secs =>
      match sleep_error secs with
      | Some e => (Err e, line)
      | None => (Ok [], line)
      end
  | _ => (Ok [], line)
  end.

Definition sim_respond `{Runtime} (c : call) (d : sim) : res bytes * sim :=
  match fault d with
  | Some (O, e) => (Err e, {| pending := pending d; fault := None |})
  | Some (S n, e) =>
      let (r, line) := sim_answer c (pending d) in
      (r, {| pending := line; fault := Some (n, e) |})
  | None =>
      let (r, line) := sim_answer c (pending d) in
      (r, {| pending := line; fault := None |})
  end.

#[global] Instance sim_board `{Runtime} : Board sim := sim_respond.

(** A board on whose line the response [batches] arrives. *)
Definition responding (batches : list bytes) : sim :=
  {| pending := batches; fault := None |}.

(** A board whose call number [n] raises [e]. *)
Definition failing (n : nat) (e : exn) : sim :=
  {| pending := []; fault := Some (n, e) |}.

(** [m] leaves the attribute [f] of the kernel as it was. *)
Definition keeps `{Runtime} {dev X A : Type} (f : @kernel _ dev -> X)
           (m : M A) : Prop :=
  forall k, f (final (m k)) = f k.

(** An exception that [do_execute] has no clause for. *)
Definition uncaught (e : exn) : Prop :=
  (forall msg, e <> BoardError msg)
  /\ (forall msg, e <> SerialException msg)
  /\ e <> KeyboardInterrupt.

(** On the simulated board, [m] run from [k] returns [a] and leaves the
    batches [line] on the serial line. *)
Definition lands `{Runtime} {A : Type} (m : M A) (k : @kernel _ sim) (a : A)
           (line : list bytes) : Prop :=
  result (m k) = Ret a /\ board (final (m k)) = responding line.

Definition is_read_call `{Runtime} (c : call) : bool :=
  match c with ReadAll | ReadUntil _ => true | _ => false end.

(** No batch of the line holds a 0x04. *)
Definition unmarked (line : list bytes) : bool :=
  forallb (fun x => negb (contains Byte.eqb CTRL_D x)) line.

(** Whether [t] occurs in [x]. *)
Fixpoint occurs (t x : bytes) : bool :=
  startswith Byte.eqb x t
  || match x with
     | [] => false
     | _ :: x' => occurs t x'
     end.

(** Whether [line.encode('utf-8')] returns. *)
Definition encodable (line : str) : bool :=
  match encode_points line with
  | Some _ => true
  | None => false
  end.

(** Whether [time.sleep(secs)] returns. *)
Definition sleeps `{Runtime} (secs : pyfloat) : bool :=
  match sleep_error secs with
  | Some _ => false
  | None => true
  end.

(** The delay that a line sets: the argument of an [%upload_delay] line,
    when [float] accepts it. *)
Definition requested_delay `{Runtime} (line : str) : option pyfloat :=
  if startswith N.eqb line (s "%upload_delay")
  then parse_upload_delay line
  else None.

(** No line of [lines] sets a delay that [time.sleep] rejects. *)
Definition delays_accepted `{Runtime} (lines : list str) : bool :=
  forallb (fun line => match requested_delay line with
                       | Some secs => sleeps secs
                       | None => true
                       end) lines.

(** A runtime to run the kernel on: floats are decimal fractions
    [digits / 10 ^ places] with a sign, no code point above 127 is
    alphanumeric, and [literal_eval] reads the list of names that
    [print(dir(...))] writes.  On the texts of the runs below it agrees
    with Python: [0.5] and [-1] are floats and [abc] is not,
    [time.sleep] takes 0.06, 0.1 and 0.5 and raises [ValueError] for -1,
    and the empty text is a syntax error for [ast.literal_eval]. *)
Module Sample.

Definition decimal := (Z * nat)%type.

Definition digit (c : codepoint) : option N :=
  if in_range 48 57 c then Some (c - 48)%N else None.

(** The digits of [x] read after the value [acc]. *)
Fixpoint digits (acc : N) (x : str) : option N :=
  match x with
  | [] => Some acc
  | c :: x' =>
      match digit c with
      | Some v => digits (acc * 10 + v) x'
      | None => None
      end
  end.

(** The digits and the number of decimal places of the texts [digits]
    and [digits.digits]. *)
Definition parse_unsigned (x : str) : option (N * nat) :=
  match split N.eqb 46%N x with
  | [whole] =>
      match whole with
      | [] => None
      | _ => option_map (fun n => (n, O)) (digits 0 whole)
      end
  | [whole; frac] =>
      match whole ++ frac with
      | [] => None
      | _ => option_map (fun n => (n, List.length frac))
               (digits 0 (whole ++ frac))
      end
  | _ => None
  end.

(** [float(x)] for the texts [digits] and [digits.digits], with or
    without a minus sign before them. *)
Definition parse_decimal (x : str) : option decimal :=
  match x with
  | 45%N :: x' =>
      option_map (fun np => ((- Z.of_N (fst np))%Z, snd np))
                 (parse_unsigned x')
  | _ => option_map (fun np => (Z.of_N (fst np), snd np)) (parse_unsigned x)
  end.

(** [time.sleep(secs)]: the delay in nanoseconds has to fit the 64 bits
    of the clock, and it may not be negative. *)
Definition reject_delay (secs : decimal) : option exn :=
  let (n, places) := secs in
  if (2 ^ 63 * 10 ^ Z.of_nat places <? Z.abs n * 10 ^ 9)%Z
  then Some OverflowError
  else if (n <? 0)%Z then Some ValueError
  else None.

Definition QUOTE : codepoint := 39%N.

(** The names of a list display, from the text after its bracket;
    [cur] is the name being read, reversed. *)
Fixpoint names_from (inside : bool) (cur x : str) : option (list str) :=
  match x with
  | [] => None
  | c :: x' =>
      if inside then
        if (c =? QUOTE)%N
        then option_map (cons (rev cur)) (names_from false [] x')
        else if (c =? 92)%N then None
        else names_from true (c :: cur) x'
      else if (c =? QUOTE)%N then names_from true [] x'
      else if (c =? 44)%N || (c =? 32)%N then names_from false [] x'
      else if (c =? 93)%N then
        if forallb isspace x' then Some [] else None
      else None
  end.

Definition read_names (x : str) : res (pyval decimal) :=
  match x with
  | 91%N :: x' =>
      match names_from false [] x' with
      | Some names => Ok (PyList (map PyStr names))
      | None => Err SyntaxError
      end
  | _ => Err SyntaxError
  end.

#[global] Instance runtime : Runtime := {|
  pyfloat := decimal;
  float_of_str := parse_decimal;
  float_0_06 := (6%Z, 2);
  float_0_1 := (1%Z, 1);
  sleep_error := reject_delay;
  unicode_isalnum := fun _ => false;
  literal_eval := read_names;
|}.

(** The kernel as [__init__] leaves it, on a simulated board. *)
Definition kernel_on (d : sim) : kernel := {|
  board := d;
  upload_delay := float_0_06;
  execution_count := 0;
|}.

(** A board that has gone before the third call. *)
Definition unplugged : kernel :=
  kernel_on (failing 2 (BoardError (s "unplugged"))).

(** A board that cannot be opened. *)
Definition absent : kernel :=
  kernel_on (failing 0 (BoardError (s "absent"))).

(** A board that prints [hello] in four batches. *)
Definition greeting : kernel :=
  kernel_on (responding [b "OKhel"; b "lo" ++ [x04]; [x04]; b ">"]).

(** A board that answers [print(dir(obj))]. *)
Definition inspected : kernel :=
  kernel_on (responding [b "OK['__class__', 'method', 'value']"
                         ++ [x0d; x0a; x04; x04; x3e]]).

(** A board whose error text starts with ['>'], with a pause after it. *)
Definition prompted : kernel :=
  kernel_on (responding [b "OKhello" ++ [x04; x3e]; b "oops" ++ [x04; x3e]]).

(** A board that prints [hello] and never ends its response. *)
Definition mute : kernel :=
  kernel_on (responding [b "OK"; b "hello"]).

(** A board that prints [hello] and then fails, all in one batch. *)
Definition failed : kernel :=
  kernel_on (responding [b "OK" ++ b "hello"
                         ++ x04 :: b "Traceback..." ++ [x04; x3e]]).

End Sample.

(** ** Properties *)

(** *** The Python functions on small inputs *)

Example splitlines_keeps_blank_lines :
  splitlines (s "a" ++ [LF; LF] ++ s "b" ++ [CR; LF]) = [s "a"; []; s "b"].
Proof. reflexivity. Qed.

Example splitlines_of_nothing : splitlines [] = [].
Proof. reflexivity. Qed.

Example split_on_space :
  split N.eqb 32%N (s "%upload_delay 0.5") = [s "%upload_delay"; s "0.5"].
Proof. reflexivity. Qed.

Example split_at_first_eot :
  split_once Byte.eqb x04 (b "out" ++ [x04] ++ b "err" ++ [x04])
  = Some (b "out", b "err" ++ [x04]).
Proof. reflexivity. Qed.

Example slice_from_the_end : slice_to (s "abcdef") (-2) = s "abcd".
Proof. reflexivity. Qed.

Example encode_then_decode :
  encode [0x20AC; 0x41; 0x1F600]%N
  = Ok [xe2; x82; xac; x41; xf0; x9f; x98; x80]
  /\ decode [xe2; x82; xac; x41; xf0; x9f; x98; x80]
     = [0x20AC; 0x41; 0x1F600]%N.
Proof. split; reflexivity. Qed.

Example encode_surrogate : encode [0xD800%N] = Err UnicodeEncodeError.
Proof. reflexivity. Qed.

Example decode_replaces_ill_formed_parts :
  decode [xe2; x28; xa1; x41; xf0; x9f; x98]
  = [REPLACEMENT; 0x28; REPLACEMENT; 0x41; REPLACEMENT]%N.
Proof. reflexivity. Qed.

(** *** Sequences *)

Section SequenceFacts.
Context {A : Type} (eqb : A -> A -> bool).
Hypothesis eqb_true : forall x y, eqb x y = true <-> x = y.

Lemma startswith_app (p q : list A) : startswith eqb (p ++ q) p = true.
Proof.
  induction p as [|c p IH]; simpl; [reflexivity|].
  rewrite IH, andb_true_r. now apply eqb_true.
Qed.

Lemma startswith_inv (x p : list A) :
  startswith eqb x p = true -> exists q, x = p ++ q.
Proof.
  revert x. induction p as [|d p IH]; intros x H.
  - now exists x.
  - destruct x as [|c x]; simpl in H; [discriminate|].
    apply andb_true_iff in H. destruct H as [Hc Hx].
    apply eqb_true in Hc. subst d.
    destruct (IH _ Hx) as [q ->]. now exists q.
Qed.

Lemma endswith_app (p t : list A) : endswith eqb (p ++ t) t = true.
Proof. unfold endswith. rewrite rev_app_distr. apply startswith_app. Qed.

Lemma endswith_inv (x t : list A) :
  endswith eqb x t = true -> exists p, x = p ++ t.
Proof.
  unfold endswith. intros H. apply startswith_inv in H.
  destruct H as [q H]. exists (rev q).
  rewrite <- (rev_involutive x), H, rev_app_distr.
  now rewrite rev_involutive.
Qed.

Lemma split_length (sep : A) (x : list A) :
  List.length (split eqb sep x) = S (count eqb sep x).
Proof.
  unfold count. induction x as [|c x IH]; simpl; [reflexivity|].
  destruct (eqb c sep); simpl.
  - now rewrite IH.
  - destruct (split eqb sep x); simpl in *; [discriminate|exact IH].
Qed.

Lemma contains_count (sep : A) (x : list A) :
  contains eqb sep x = true <-> 1 <= count eqb sep x.
Proof.
  unfold contains, count. induction x as [|c x IH]; simpl.
  - split; [discriminate|lia].
  - destruct (eqb c sep); simpl; [split; [lia|reflexivity]|exact IH].
Qed.

Lemma contains_app (sep : A) (x y : list A) :
  contains eqb sep (x ++ y) = contains eqb sep x || contains eqb sep y.
Proof. unfold contains. apply existsb_app. Qed.

Lemma split_once_contains (sep : A) (x : list A) :
  contains eqb sep x = true -> exists p, split_once eqb sep x = Some p.
Proof.
  unfold contains. induction x as [|c x IH]; simpl; [discriminate|].
  destruct (eqb c sep); simpl; [now eexists|].
  intros H. destruct (IH H) as [[u v] ->]. now eexists.
Qed.

Lemma split_once_app (sep : A) (u v : list A) :
  contains eqb sep u = false ->
  split_once eqb sep (u ++ sep :: v) = Some (u, v).
Proof.
  unfold contains. induction u as [|c u IH]; simpl; intros H.
  - replace (eqb sep sep) with true; [reflexivity|].
    symmetry. now apply eqb_true.
  - apply orb_false_iff in H. destruct H as [Hc Hu].
    rewrite Hc, (IH Hu). reflexivity.
Qed.
End SequenceFacts.

Lemma byte_eqb_true (x y : byte) : Byte.eqb x y = true <-> x = y.
Proof. split; [apply byte_dec_bl|apply byte_dec_lb]. Qed.

Lemma drop_last2_app {A} (p t : list A) :
  List.length t = 2 -> drop_last2 (p ++ t) = p.
Proof.
  intros H. unfold drop_last2. rewrite length_app, H.
  replace (List.length p + 2 - 2) with (List.length p + 0) by lia.
  now rewrite firstn_app_2, app_nil_r.
Qed.

(** *** Runs *)

Section Properties.
Context `{RT : Runtime} {dev : Type} `{BD : !Board dev}.

Local Abbreviation M := (@M RT dev).
Local Abbreviation kernel := (@kernel RT dev).

Lemma bind_returns {A B} (m : M A) (f : A -> M B) k a :
  result (m k) = Ret a ->
  (x <- m ;; f x) k =
    {| events := events (m k) ++ events (f a (final (m k)));
       result := result (f a (final (m k)));
       final := final (f a (final (m k))) |}.
Proof. intros H. unfold bind. now rewrite H. Qed.

Lemma bind_raises {A B} (m : M A) (f : A -> M B) k e :
  result (m k) = Raise e ->
  (x <- m ;; f x) k =
    {| events := events (m k); result := Raise e; final := final (m k) |}.
Proof. intros H. unfold bind. now rewrite H. Qed.

Lemma bind_out_of_fuel {A B} (m : M A) (f : A -> M B) k :
  result (m k) = OutOfFuel ->
  (x <- m ;; f x) k =
    {| events := events (m k); result := OutOfFuel; final := final (m k) |}.
Proof. intros H. unfold bind. now rewrite H. Qed.

Lemma try_except_caught {A} (m : M A) (h : exn -> option (M A)) k e
      (handler : M A) :
  result (m k) = Raise e ->
  h e = Some handler ->
  try_except m h k =
    {| events := events (m k) ++ events (handler (final (m k)));
       result := result (handler (final (m k)));
       final := final (handler (final (m k))) |}.
Proof. intros H He. unfold try_except. now rewrite H, He. Qed.

Lemma io_run (c : call) (k : kernel) :
  io c k =
    {| events := [Io c (fst (respond c (board k)))];
       result := match fst (respond c (board k)) with
                 | Ok x => Ret x
                 | Err e => Raise e
                 end;
       final := with_board k (snd (respond c (board k))) |}.
Proof. unfold io. now destruct (respond c (board k)). Qed.

(** A blank cell is answered without a call to the board. *)
Lemma do_execute_blank (fuel : nat) (code : str) (silent : bool) k :
  is_empty (strip code) = true ->
  do_execute fuel code silent k = ok_reply k.
Proof. intros H. unfold do_execute. now rewrite H. Qed.

(** C4: when [run_code] raises [BoardError], [SerialException] or
    [KeyboardInterrupt] inside [do_execute], [do_execute] does not raise:
    after the events of [run_code] it sends one stderr stream message
    with the description of the failure, and it returns a reply whose
    status is ['ok']. *)
Theorem do_execute_reports_failure :
  forall (fuel : nat) (code : str) (silent : bool) (k : kernel)
         (e : exn) (text : str),
    is_empty (strip code) = false ->
    result (run_code fuel code silent k) = Raise e ->
    reported e text ->
    let failed := run_code fuel code silent k in
    let r := do_execute fuel code silent k in
    events r = events failed ++ [Stream (s "stderr") text]
    /\ result r = Ret {| status := s "ok";
                         reply_execution_count :=
                           execution_count (final failed);
                         payload := [];
                         user_expressions := [] |}
    /\ final r = final failed.
Proof.
  intros fuel code silent k e text Hcode Hrun Hrep failed r.
  subst r. unfold do_execute. rewrite Hcode.
  set (body := run_code fuel code silent ;; ret tt).
  assert (Hbody : body k = {| events := events failed; result := Raise e;
                              final := final failed |})
    by (apply bind_raises; exact Hrun).
  assert (Htry : try_except body execute_handler k =
                 {| events := events failed ++ [Stream (s "stderr") text];
                    result := Ret tt; final := final failed |}).
  { rewrite (try_except_caught _ _ _ e (send_stderr text false)).
    - rewrite Hbody. destruct Hrep; reflexivity.
    - now rewrite Hbody.
    - destruct Hrep; reflexivity. }
  rewrite (bind_returns _ _ _ tt) by now rewrite Htry.
  rewrite Htry. cbn. rewrite app_nil_r. repeat split.
Qed.

(** C2 (what the code does): when [run_code] raises [BoardError] or
    [SerialException], [_eval] sets [out] to the empty text and hands
    it to [ast.literal_eval], whose [SyntaxError] on the empty text
    goes to the caller of [_eval]. *)
Theorem _eval_raises_on_lost_connection :
  forall (fuel : nat) (expr : str) (k : kernel) (msg : str),
    literal_eval [] = Err SyntaxError ->
    result (run_code fuel (s "print(" ++ expr ++ s ")") true k)
      = Raise (BoardError msg)
    \/ result (run_code fuel (s "print(" ++ expr ++ s ")") true k)
      = Raise (SerialException msg) ->
    result (_eval fuel expr k) = Raise SyntaxError.
Proof.
  intros fuel expr k msg Hlit Hrun. unfold _eval, bind, try_except.
  destruct Hrun as [H|H]; rewrite H; cbn; now rewrite Hlit.
Qed.

(** C9 (amended): [do_shutdown] first writes the two bytes 0x0D 0x02 in
    one call; when that call returns, its next and last call closes the
    board, and when it raises, the exception ends [do_shutdown]. *)
Theorem do_shutdown_calls :
  forall (restart : bool) (k : kernel),
    let w := respond (Write [x0d; x02]) (board k) in
    let r := do_shutdown restart k in
    match fst w with
    | Ok _ =>
        let c := respond Close (snd w) in
        events r = [Io (Write [x0d; x02]) (fst w); Io Close (fst c)]
        /\ result r = match fst c with
                      | Ok _ => Ret tt
                      | Err e => Raise e
                      end
    | Err e =>
        events r = [Io (Write [x0d; x02]) (Err e)] /\ result r = Raise e
    end.
Proof.
  intros restart k. cbv zeta. unfold do_shutdown, bind.
  rewrite io_run. cbn [result events final].
  destruct (respond (Write [x0d; x02]) (board k)) as [[x|e] d]; cbn.
  - rewrite io_run. cbn.
    destruct (respond Close d) as [[y|e] d']; cbn; now split.
  - now split.
Qed.

(** C10: when the text that [re.search] matches before the cursor has
    two or more dots, [do_complete] raises the [ValueError] of the
    unpacking, without a call to the board. *)
Theorem do_complete_unpack_error :
  forall (fuel : nat) (code : str) (cursor_pos : Z) (k : kernel)
         (prefix : str),
    re_search (slice_to code cursor_pos) = Some prefix ->
    2 <= count N.eqb DOT prefix ->
    do_complete fuel code cursor_pos k = raise ValueError k.
Proof.
  intros fuel code cursor_pos k prefix Hsearch Hdots.
  unfold do_complete. rewrite Hsearch.
  assert (Hc : contains N.eqb DOT prefix = true)
    by (apply (contains_count N.eqb); lia).
  rewrite Hc.
  pose proof (split_length N.eqb DOT prefix) as Hlen.
  destruct (split N.eqb DOT prefix) as [|f1 [|f2 [|f3 fs]]];
    simpl in Hlen; try lia; reflexivity.
Qed.

(** *** Sending the code *)

Lemma run_eta {A} (r : @run RT dev A) :
  {| events := events r; result := result r; final := final r |} = r.
Proof. now destruct r. Qed.

Lemma bind_ret_l {A B} (a : A) (f : A -> M B) k :
  (x <- ret a ;; f x) k = f a k.
Proof. unfold bind, ret. cbn. apply run_eta. Qed.

Lemma bind_pure {A B} (m : M A) (f : A -> M B) k a :
  m k = ret a k -> (x <- m ;; f x) k = f a k.
Proof. intros H. unfold bind. rewrite H. cbn. apply run_eta. Qed.

Lemma bind_events_all {A B} (P : event -> bool) (m : M A) (f : A -> M B) k :
  forallb P (events (m k)) = true ->
  (forall a k', forallb P (events (f a k')) = true) ->
  forallb P (events ((x <- m ;; f x) k)) = true.
Proof.
  intros Hm Hf. unfold bind. destruct (result (m k)); cbn; trivial.
  rewrite forallb_app, Hm. apply Hf.
Qed.

Lemma writes_app (e1 e2 : list event) :
  writes (e1 ++ e2) = writes e1 ++ writes e2.
Proof. apply flat_map_app. Qed.

Lemma calls_app (e1 e2 : list event) :
  calls (e1 ++ e2) = calls e1 ++ calls e2.
Proof. apply flat_map_app. Qed.

Lemma writes_none (evs : list event) :
  forallb (fun ev => negb (is_write ev)) evs = true -> writes evs = [].
Proof.
  induction evs as [|ev evs IH]; intros H; [reflexivity|].
  cbn in H. apply andb_true_iff in H. destruct H as [Hev Hevs].
  unfold writes in *. cbn [flat_map]. rewrite (IH Hevs).
  destruct ev as [[] ?|]; try reflexivity; discriminate.
Qed.

Lemma is_magic_plain (line : str) k :
  magic line = false -> is_magic line k = ret false k.
Proof.
  unfold magic, is_magic. intros H. apply orb_false_iff in H.
  destruct H as [H1 H2]. now rewrite H1, H2.
Qed.

Lemma is_magic_handled (line : str) k :
  magic line = true ->
  (result (is_magic line k) = Ret true
   \/ exists e, result (is_magic line k) = Raise e)
  /\ writes (events (is_magic line k)) = []
  /\ forallb (fun ev => negb (is_read ev)) (events (is_magic line k)) = true.
Proof.
  unfold magic, is_magic. intros H.
  destruct (startswith N.eqb line (s "%softreset")).
  - unfold bind. rewrite io_run. cbn.
    destruct (respond SoftReset (board k)) as [[x|e] d]; cbn; eauto.
  - cbn [orb] in H. rewrite H.
    destruct (parse_upload_delay line); cbn; auto.
Qed.

Ltac leaf w :=
  repeat split; try discriminate; try reflexivity; try (now exists w).

(** One pass through the body of the [for] loop. *)
Lemma send_line_writes (line : str) k :
  let r := send_line line k in
  let due := if magic line then [] else [utf8 line; CRLF] in
  prefix_of (writes (events r)) due
  /\ (result r = Ret tt -> writes (events r) = due)
  /\ forallb (fun ev => negb (is_read ev)) (events r) = true.
Proof.
  cbv zeta. unfold send_line. destruct (magic line) eqn:Hm.
  - destruct (is_magic_handled line k Hm) as [Hres [Hw Hr]].
    destruct Hres as [Hres|[e Hres]].
    + rewrite (bind_returns _ _ _ _ Hres). cbv beta iota. unfold ret.
      cbn [events result final]. rewrite app_nil_r, Hw, Hr.
      repeat split. now exists [].
    + rewrite (bind_raises _ _ _ _ Hres). cbn [events result final].
      rewrite Hw, Hr. repeat split; try discriminate. now exists [].
  - rewrite (bind_pure _ _ _ false (is_magic_plain _ _ Hm)).
    unfold utf8, encode, lift, bind.
    destruct (encode_points line) as [data|]; cbn.
    + rewrite io_run. cbn.
      destruct (respond (Write data) (board k)) as [[x|e] d]; cbn.
      * rewrite io_run. cbn.
        destruct (respond (Write CRLF) d) as [[y|e] d']; cbn.
        -- rewrite io_run. cbn.
           destruct (respond (Sleep (upload_delay k)) d') as [[z|e] d''];
             cbn; leaf (@nil bytes).
        -- leaf (@nil bytes).
      * leaf [CRLF].
    + leaf [@nil byte; CRLF].
Qed.

Lemma send_lines_writes (lines : list str) k :
  let r := send_lines lines k in
  let due := wire (filter (fun line => negb (magic line)) lines) in
  prefix_of (writes (events r)) due
  /\ (result r = Ret tt -> writes (events r) = due)
  /\ forallb (fun ev => negb (is_read ev)) (events r) = true.
Proof.
  cbv zeta. revert k. induction lines as [|line rest IH]; intros k.
  - cbn. repeat split. now exists [].
  - cbn [send_lines filter].
    destruct (send_line_writes line k) as [Hpre [Hall Hrd]].
    assert (Hdue : wire (if negb (magic line)
                         then line :: filter (fun l => negb (magic l)) rest
                         else filter (fun l => negb (magic l)) rest)
                   = (if magic line then [] else [utf8 line; CRLF])
                     ++ wire (filter (fun l => negb (magic l)) rest))
      by now destruct (magic line).
    rewrite Hdue. clear Hdue.
    destruct (result (send_line line k)) as [[]|e|] eqn:Hres.
    + rewrite (bind_returns _ _ _ _ Hres). cbn [events result final].
      destruct (IH (final (send_line line k))) as [[tl Htl] [Heq Hrd']].
      rewrite writes_app, (Hall eq_refl), forallb_app, Hrd, Hrd'.
      repeat split.
      * exists tl. now rewrite Htl, app_assoc.
      * intros H. now rewrite (Heq H).
    + rewrite (bind_raises _ _ _ _ Hres). cbn [events result final].
      destruct Hpre as [tl Htl]. rewrite Hrd. repeat split; try discriminate.
      exists (tl ++ wire (filter (fun l => negb (magic l)) rest)).
      now rewrite Htl, app_assoc.
    + rewrite (bind_out_of_fuel _ _ _ Hres). cbn [events result final].
      destruct Hpre as [tl Htl]. rewrite Hrd. repeat split; try discriminate.
      exists (tl ++ wire (filter (fun l => negb (magic l)) rest)).
      now rewrite Htl, app_assoc.
Qed.

Lemma io_events_all (P : event -> bool) (c : call) k :
  (forall r, P (Io c r) = true) -> forallb P (events (io c k)) = true.
Proof. intros H. rewrite io_run. cbn. now rewrite H. Qed.

Lemma send_stdout_events_all (P : event -> bool) msg silent (k : kernel) :
  (forall name text, P (Stream name text) = true) ->
  forallb P (events (send_stdout msg silent k)) = true.
Proof.
  intros H. unfold send_stdout.
  destruct (silent || is_empty msg); cbn; [reflexivity|now rewrite H].
Qed.

Lemma send_stderr_events_all (P : event -> bool) msg silent (k : kernel) :
  (forall name text, P (Stream name text) = true) ->
  forallb P (events (send_stderr msg silent k)) = true.
Proof.
  intros H. unfold send_stderr.
  destruct (silent || is_empty msg); cbn; [reflexivity|now rewrite H].
Qed.

(** The events of the two polling loops are reads, sleeps and stream
    messages. *)
Section Polling.
Variable P : event -> bool.
Hypothesis P_read : forall r, P (Io ReadAll r) = true.
Hypothesis P_sleep : forall f r, P (Io (Sleep f) r) = true.
Hypothesis P_stream : forall name text, P (Stream name text) = true.

Lemma await_terminator_events_all fuel :
  forall data k,
    forallb P (events (await_terminator fuel data k)) = true.
Proof.
  induction fuel as [|fuel IH]; intros data k; cbn [await_terminator];
    destruct (endswith Byte.eqb data TERMINATOR); try reflexivity.
  apply bind_events_all; [now apply io_events_all|]. intros more k1.
  apply bind_events_all; [now apply io_events_all|]. intros _ k2.
  apply IH.
Qed.

Lemma split_out_err_events_all data (k : kernel) :
  forallb P (events (split_out_err data k)) = true.
Proof.
  unfold split_out_err.
  now destruct (split_once Byte.eqb CTRL_D data).
Qed.

Lemma read_result_events_all fuel :
  forall retval silent k,
    forallb P (events (read_result fuel retval silent k)) = true.
Proof.
  induction fuel as [|fuel IH]; intros retval silent k;
    cbn [read_result]; [reflexivity|].
  apply bind_events_all; [now apply io_events_all|]. intros data k1.
  destruct (contains Byte.eqb CTRL_D data).
  - apply bind_events_all; [apply await_terminator_events_all|].
    intros data' k2.
    apply bind_events_all; [apply split_out_err_events_all|].
    intros p k3.
    apply bind_events_all; [now apply send_stdout_events_all|].
    intros _ k4.
    apply bind_events_all; [now apply send_stderr_events_all|].
    reflexivity.
  - apply bind_events_all; [now apply send_stdout_events_all|].
    intros _ k2.
    apply bind_events_all; [now apply io_events_all|]. intros _ k3.
    apply IH.
Qed.
End Polling.

Lemma read_response_writes fuel silent k :
  writes (events (read_response fuel silent k)) = [].
Proof.
  apply writes_none. unfold read_response.
  apply bind_events_all; [now apply io_events_all|]. intros _ k1.
  apply bind_events_all; [now apply read_result_events_all|].
  intros retval k2.
  apply bind_events_all; [apply split_out_err_events_all|]. reflexivity.
Qed.

Lemma send_code_writes (code : str) k :
  let r := send_code code k in
  let due := wire (filter (fun line => negb (magic line)) (splitlines code)) in
  prefix_of (writes (events r)) due
  /\ (result r = Ret tt -> writes (events r) = due)
  /\ forallb (fun ev => negb (is_read ev)) (events r) = true.
Proof.
  cbv zeta. unfold send_code, bind. rewrite io_run. cbn [result events final].
  destruct (respond Connect (board k)) as [[x|e] d]; cbn [fst snd].
  - destruct (send_lines_writes (splitlines code) (with_board k d))
      as [Hpre [Hall Hrd]].
    cbn [app writes flat_map forallb is_read negb andb]. auto.
  - cbn. leaf (wire (filter (fun line => negb (magic line))
                            (splitlines code))).
Qed.


(** C8 (amended): when the code has been sent, the next call of
    [run_code] is one write of the two bytes 0x0D 0x04; nothing was read
    before it, nothing is written after it, and when it returns the next
    call is the read of the response head. *)
Theorem run_code_trigger :
  forall (fuel : nat) (code : str) (silent : bool) (k : kernel),
    result (send_code code k) = Ret tt ->
    let sent := send_code code k in
    let w := respond (Write [x0d; x04]) (board (final sent)) in
    forallb (fun ev => negb (is_read ev)) (events sent) = true
    /\ exists rest,
        events (run_code fuel code silent k)
        = events sent ++ Io (Write [x0d; x04]) (fst w) :: rest
        /\ writes rest = []
        /\ match fst w with
           | Ok _ =>
               exists r rest', rest = Io (ReadUntil (b "OK")) r :: rest'
           | Err e =>
               rest = [] /\ result (run_code fuel code silent k) = Raise e
           end.
Proof.
  intros fuel code silent k Hres sent w. subst sent w.
  split; [apply send_code_writes|].
  unfold run_code. rewrite (bind_returns _ _ _ _ Hres).
  cbn [events result final].
  set (k1 := final (send_code code k)).
  unfold bind. rewrite io_run. cbn [result events final].
  destruct (respond (Write [x0d; x04]) (board k1)) as [[x|e] d];
    cbn [fst snd events result].
  - exists (events (read_response fuel silent (with_board k1 d))).
    split; [reflexivity|]. split; [apply read_response_writes|].
    unfold read_response, bind. rewrite io_run. cbn [result events final].
    destruct (respond (ReadUntil (b "OK")) (board (with_board k1 d)))
      as [[y|e] d']; cbn [fst snd events]; do 2 eexists; reflexivity.
  - exists []. repeat split.
Qed.

(** *** The pacing delay *)

Lemma send_line_calls (line : str) k :
  magic line = false ->
  result (send_line line k) = Ret tt ->
  calls (events (send_line line k))
  = [Write (utf8 line); Write CRLF; Sleep (upload_delay k)]
  /\ upload_delay (final (send_line line k)) = upload_delay k.
Proof.
  intros Hm. unfold send_line.
  rewrite (bind_pure _ _ _ false (is_magic_plain _ _ Hm)).
  unfold utf8, encode, lift, bind.
  destruct (encode_points line) as [data|]; cbn; [|discriminate].
  rewrite io_run. cbn.
  destruct (respond (Write data) (board k)) as [[x|e] d]; cbn;
    [|discriminate].
  rewrite io_run. cbn.
  destruct (respond (Write CRLF) d) as [[y|e] d']; cbn; [|discriminate].
  rewrite io_run. cbn.
  destruct (respond (Sleep (upload_delay k)) d') as [[z|e] d'']; cbn;
    [|discriminate].
  now split.
Qed.

Lemma send_lines_calls (lines : list str) :
  forall k,
    forallb (fun line => negb (magic line)) lines = true ->
    result (send_lines lines k) = Ret tt ->
    calls (events (send_lines lines k))
    = flat_map (fun line =>
                  [Write (utf8 line); Write CRLF; Sleep (upload_delay k)])
               lines.
Proof.
  induction lines as [|line rest IH]; intros k Hplain Hres; [reflexivity|].
  cbn [forallb] in Hplain. apply andb_true_iff in Hplain.
  destruct Hplain as [Hline Hrest]. apply negb_true_iff in Hline.
  cbn [send_lines] in *.
  destruct (result (send_line line k)) as [[]|e|] eqn:Hfirst.
  - rewrite (bind_returns _ _ _ _ Hfirst) in *. cbn [events result] in *.
    destruct (send_line_calls line k Hline Hfirst) as [Hcalls Hdelay].
    rewrite calls_app, Hcalls, (IH _ Hrest Hres), Hdelay. reflexivity.
  - rewrite (bind_raises _ _ _ _ Hfirst) in Hres. discriminate.
  - rewrite (bind_out_of_fuel _ _ _ Hfirst) in Hres. discriminate.
Qed.

(** C6: [%upload_delay 0.5] sets [upload_delay] to the float 0.5 and
    does nothing else; from then on the sleep after the two writes of
    every line sent is that delay; [%upload_delay abc], whose argument
    [float] rejects, leaves the kernel as it was, sends no message and
    raises nothing.  Both lines are handled, so neither is sent. *)
Theorem upload_delay_magic :
  forall (k : kernel) (half : pyfloat),
    float_of_str (s "0.5") = Some half ->
    float_of_str (s "abc") = None ->
    is_magic (s "%upload_delay 0.5") k = ret true (with_upload_delay k half)
    /\ (forall (lines : list str) (k' : kernel),
          upload_delay k' = half ->
          forallb (fun line => negb (magic line)) lines = true ->
          result (send_lines lines k') = Ret tt ->
          calls (events (send_lines lines k'))
          = flat_map (fun line => [Write (utf8 line); Write CRLF; Sleep half])
                     lines)
    /\ is_magic (s "%upload_delay abc") k = ret true k.
Proof.
  intros k half Hhalf Habc. repeat split.
  - assert (E : parse_upload_delay (s "%upload_delay 0.5")
                = float_of_str (s "0.5")) by reflexivity.
    unfold is_magic.
    change (startswith N.eqb (s "%upload_delay 0.5") (s "%softreset"))
      with false.
    change (startswith N.eqb (s "%upload_delay 0.5") (s "%upload_delay"))
      with true.
    cbv iota. now rewrite E, Hhalf.
  - intros lines k' Hdelay Hplain Hres.
    rewrite (send_lines_calls lines k' Hplain Hres). now rewrite Hdelay.
  - assert (E : parse_upload_delay (s "%upload_delay abc")
                = float_of_str (s "abc")) by reflexivity.
    unfold is_magic.
    change (startswith N.eqb (s "%upload_delay abc") (s "%softreset"))
      with false.
    change (startswith N.eqb (s "%upload_delay abc") (s "%upload_delay"))
      with true.
    cbv iota. now rewrite E, Habc.
Qed.

(** *** The silent flag *)

Lemma quiet_bind {A B} (m1 m2 : M A) (f1 f2 : A -> M B) k :
  quiet_of (m1 k) (m2 k) ->
  (forall a k', quiet_of (f1 a k') (f2 a k')) ->
  quiet_of ((x <- m1 ;; f1 x) k) ((x <- m2 ;; f2 x) k).
Proof.
  intros [Hr [Hf He]] H. unfold bind. rewrite Hr, Hf.
  destruct (result (m2 k)) as [a|e|]; unfold quiet_of; cbn;
    rewrite ?filter_app, He; auto.
  destruct (H a (final (m2 k))) as [Hr' [Hf' He']].
  now rewrite Hr', Hf', He'.
Qed.

Lemma quiet_same {A} (m : M A) k :
  forallb (fun ev => negb (is_stream ev)) (events (m k)) = true ->
  quiet_of (m k) (m k).
Proof.
  intros H. repeat split. symmetry. now apply forallb_filter_id.
Qed.

Lemma quiet_io (c : call) k : quiet_of (io c k) (io c k).
Proof. apply quiet_same. now apply io_events_all. Qed.

Lemma quiet_send_stdout msg (k : kernel) :
  quiet_of (send_stdout msg true k) (send_stdout msg false k).
Proof.
  unfold send_stdout. destruct (is_empty msg); repeat split.
Qed.

Lemma quiet_send_stderr msg (k : kernel) :
  quiet_of (send_stderr msg true k) (send_stderr msg false k).
Proof.
  unfold send_stderr. destruct (is_empty msg); repeat split.
Qed.

Lemma quiet_read_result fuel :
  forall retval k,
    quiet_of (read_result fuel retval true k)
             (read_result fuel retval false k).
Proof.
  induction fuel as [|fuel IH]; intros retval k; cbn [read_result];
    [repeat split|].
  apply quiet_bind; [apply quiet_io|]. intros data k1.
  destruct (contains Byte.eqb CTRL_D data).
  - apply quiet_bind.
    { apply quiet_same. now apply await_terminator_events_all. }
    intros data' k2. apply quiet_bind.
    { apply quiet_same. apply split_out_err_events_all. }
    intros p k3. apply quiet_bind; [apply quiet_send_stdout|].
    intros _ k4. apply quiet_bind; [apply quiet_send_stderr|].
    intros _ k5. repeat split.
  - apply quiet_bind; [apply quiet_send_stdout|]. intros _ k2.
    apply quiet_bind; [apply quiet_io|]. intros _ k3. apply IH.
Qed.

Lemma is_magic_events_io (P : event -> bool) line k :
  (forall c r, P (Io c r) = true) ->
  forallb P (events (is_magic line k)) = true.
Proof.
  intros HP. unfold is_magic.
  destruct (startswith N.eqb line (s "%softreset")).
  - apply bind_events_all; [now apply io_events_all|]. reflexivity.
  - destruct (startswith N.eqb line (s "%upload_delay")); [|reflexivity].
    now destruct (parse_upload_delay line).
Qed.

Lemma send_lines_events_io (P : event -> bool) lines :
  (forall c r, P (Io c r) = true) ->
  forall k, forallb P (events (send_lines lines k)) = true.
Proof.
  intros HP. induction lines as [|line rest IH]; intros k;
    cbn [send_lines]; [reflexivity|].
  apply bind_events_all; [|intros _ k'; apply IH].
  unfold send_line.
  apply bind_events_all; [now apply is_magic_events_io|].
  intros [|] k1; [reflexivity|].
  apply bind_events_all.
  { unfold lift. now destruct (encode line). }
  intros data k2.
  apply bind_events_all; [now apply io_events_all|]. intros _ k3.
  apply bind_events_all; [now apply io_events_all|]. intros _ k4.
  apply bind_events_all; [reflexivity|]. intros delay k5.
  apply bind_events_all; [now apply io_events_all|]. reflexivity.
Qed.

Lemma quiet_run_code fuel code k :
  quiet_of (run_code fuel code true k) (run_code fuel code false k).
Proof.
  unfold run_code. apply quiet_bind.
  { apply quiet_same. unfold send_code.
    apply bind_events_all; [now apply io_events_all|].
    intros _ k1. now apply send_lines_events_io. }
  intros _ k1. apply quiet_bind; [apply quiet_io|]. intros _ k2.
  unfold read_response. apply quiet_bind; [apply quiet_io|].
  intros _ k3. apply quiet_bind; [apply quiet_read_result|].
  intros retval k4. apply quiet_bind.
  { apply quiet_same. apply split_out_err_events_all. }
  intros p k5. repeat split.
Qed.

(** *** The bytes read and the pair returned *)

Lemma bind_ret_inv {A B} (m : M A) (f : A -> M B) k (v : B) :
  result (bind m f k) = Ret v ->
  exists a,
    result (m k) = Ret a
    /\ result (f a (final (m k))) = Ret v
    /\ events (bind m f k) = events (m k) ++ events (f a (final (m k))).
Proof.
  unfold bind. destruct (result (m k)) as [a|e|]; cbn; try discriminate.
  intros H. now exists a.
Qed.

Lemma received_app (e1 e2 : list event) :
  received (e1 ++ e2) = received e1 ++ received e2.
Proof. apply flat_map_app. Qed.

Lemma received_none (evs : list event) :
  forallb (fun ev => negb (is_read ev)) evs = true -> received evs = [].
Proof.
  induction evs as [|ev evs IH]; intros H; [reflexivity|].
  cbn in H. apply andb_true_iff in H. destruct H as [Hev Hevs].
  unfold received in *. cbn [flat_map]. rewrite (IH Hevs).
  destruct ev as [[] ?|]; try reflexivity; discriminate.
Qed.

Lemma io_ret_inv (c : call) k (x : bytes) :
  result (io c k) = Ret x -> events (io c k) = [Io c (Ok x)].
Proof.
  rewrite io_run. cbn.
  destruct (fst (respond c (board k))); intros H; now inversion H.
Qed.

Lemma send_stdout_received msg silent (k : kernel) :
  received (events (send_stdout msg silent k)) = [].
Proof. unfold send_stdout. now destruct (silent || is_empty msg). Qed.

Lemma send_stderr_received msg silent (k : kernel) :
  received (events (send_stderr msg silent k)) = [].
Proof. unfold send_stderr. now destruct (silent || is_empty msg). Qed.

Lemma split_out_err_events data (k : kernel) :
  events (split_out_err data k) = [].
Proof.
  unfold split_out_err. now destruct (split_once Byte.eqb CTRL_D data).
Qed.

Lemma split_out_err_ret_inv data (k : kernel) p :
  result (split_out_err data k) = Ret p ->
  split_once Byte.eqb CTRL_D data = Some p.
Proof.
  unfold split_out_err.
  destruct (split_once Byte.eqb CTRL_D data); cbn; intros H;
    now inversion H.
Qed.

Lemma await_terminator_received fuel :
  forall data k data',
    result (await_terminator fuel data k) = Ret data' ->
    data' = data ++ received (events (await_terminator fuel data k))
    /\ endswith Byte.eqb data' TERMINATOR = true.
Proof.
  induction fuel as [|fuel IH]; intros data k data';
    cbn [await_terminator];
    destruct (endswith Byte.eqb data TERMINATOR) eqn:Hend;
    try (intros H; inversion H; subst; cbn; now rewrite app_nil_r);
    try discriminate.
  intros H.
  apply bind_ret_inv in H. destruct H as [more [Hread [H Hev]]].
  rewrite Hev, (io_ret_inv _ _ _ Hread). clear Hev.
  apply bind_ret_inv in H. destruct H as [z [Hsleep [H Hev]]].
  rewrite Hev, (io_ret_inv _ _ _ Hsleep). clear Hev.
  destruct (IH _ _ _ H) as [Hdata Hends]. split; [|exact Hends].
  rewrite Hdata at 1. now rewrite <- app_assoc.
Qed.

Lemma read_result_step fuel retval silent :
  read_result (S fuel) retval silent
  = bind (io ReadAll) (fun data =>
      if contains Byte.eqb CTRL_D data then
        bind (await_terminator fuel data) (fun data' =>
        bind (split_out_err (drop_last2 data')) (fun p =>
        bind (send_stdout (decode (fst p)) silent) (fun _ =>
        bind (send_stderr (decode (snd p)) silent) (fun _ =>
        ret (retval ++ drop_last2 data')))))
      else
        bind (send_stdout (decode data) silent) (fun _ =>
        bind (io (Sleep float_0_1)) (fun _ =>
        read_result fuel (retval ++ data) silent))).
Proof. reflexivity. Qed.

Lemma read_result_received fuel :
  forall retval silent k rv,
    result (read_result fuel retval silent k) = Ret rv ->
    let got := received (events (read_result fuel retval silent k)) in
    rv = retval ++ drop_last2 got /\ 2 <= List.length got.
Proof.
  induction fuel as [|fuel IH]; intros retval silent k rv H; cbv zeta;
    [discriminate|]. rewrite read_result_step in *.
  apply bind_ret_inv in H. destruct H as [data [Hread [H Hev]]].
  rewrite Hev, (io_ret_inv _ _ _ Hread), received_app. clear Hev.
  change (received [Io ReadAll (Ok data)]) with (data ++ []).
  rewrite app_nil_r.
  destruct (contains Byte.eqb CTRL_D data).
  - apply bind_ret_inv in H. destruct H as [data' [Hwait [H Hev]]].
    rewrite Hev, received_app. clear Hev.
    destruct (await_terminator_received _ _ _ _ Hwait) as [Hdata Hends].
    apply bind_ret_inv in H. destruct H as [p [Hsplit [H Hev]]].
    rewrite Hev, received_app, split_out_err_events. clear Hev.
    apply bind_ret_inv in H. destruct H as [u1 [Hout [H Hev]]].
    rewrite Hev, received_app, send_stdout_received. clear Hev.
    apply bind_ret_inv in H. destruct H as [u2 [Herr [H Hev]]].
    rewrite Hev, received_app, send_stderr_received. clear Hev.
    cbn in H. inversion H; subst rv. unfold ret.
    cbn [events app received flat_map]. rewrite !app_nil_r, <- Hdata.
    apply (endswith_inv _ byte_eqb_true) in Hends.
    destruct Hends as [body ->]. split; [reflexivity|].
    rewrite length_app. cbn. lia.
  - apply bind_ret_inv in H. destruct H as [u1 [Hout [H Hev]]].
    rewrite Hev, received_app, send_stdout_received. clear Hev.
    apply bind_ret_inv in H. destruct H as [z [Hsleep [H Hev]]].
    rewrite Hev, (io_ret_inv _ _ _ Hsleep), received_app. clear Hev.
    destruct (IH _ _ _ _ H) as [Hrv Hlen].
    cbn [app received flat_map]. split.
    + rewrite Hrv, <- app_assoc. f_equal. unfold drop_last2.
      rewrite length_app.
      replace (List.length data
               + List.length
                   (received
                      (events
                         (read_result fuel (retval ++ data) silent
                            (final
                               (io (Sleep float_0_1)
                                  (final
                                     (send_stdout (decode data) silent
                                        (final (io ReadAll k)))))))))
               - 2)
        with (List.length data
              + (List.length
                   (received
                      (events
                         (read_result fuel (retval ++ data) silent
                            (final
                               (io (Sleep float_0_1)
                                  (final
                                     (send_stdout (decode data) silent
                                        (final (io ReadAll k)))))))))
                 - 2)) by lia.
      now rewrite firstn_app_2.
    + rewrite length_app. lia.
Qed.

(** C7: a silent run of [run_code] ends as the run that is not silent
    does, with the same pair if it returns one, and leaves the kernel and
    the board in the same state; its events are those of the other run
    without the stream messages.  The pair returned is the bytes that
    the [read_all] calls returned, without the last two, split at the
    first 0x04 and decoded. *)
Theorem run_code_silent_flag :
  forall (fuel : nat) (code : str) (k : kernel),
    let quiet := run_code fuel code true k in
    let loud := run_code fuel code false k in
    result quiet = result loud
    /\ final quiet = final loud
    /\ events quiet = filter (fun ev => negb (is_stream ev)) (events loud)
    /\ forall (silent : bool) (out err : str),
        result (run_code fuel code silent k) = Ret (out, err) ->
        exists o e,
          split_once Byte.eqb CTRL_D
            (drop_last2 (received (events (run_code fuel code silent k))))
          = Some (o, e)
          /\ out = decode o /\ err = decode e.
Proof.
  intros fuel code k quiet loud. subst quiet loud.
  destruct (quiet_run_code fuel code k) as [Hr [Hf He]].
  repeat split; trivial.
  intros silent out err H. unfold run_code in *.
  apply bind_ret_inv in H. destruct H as [[] [Hsend [H Hev]]].
  rewrite Hev, received_app. clear Hev.
  rewrite (received_none _ (proj2 (proj2 (send_code_writes code k)))).
  apply bind_ret_inv in H. destruct H as [x [Hwrite [H Hev]]].
  rewrite Hev, (io_ret_inv _ _ _ Hwrite), received_app. clear Hev.
  unfold read_response in *.
  apply bind_ret_inv in H. destruct H as [y [Hhead [H Hev]]].
  rewrite Hev, (io_ret_inv _ _ _ Hhead), received_app. clear Hev.
  apply bind_ret_inv in H. destruct H as [rv [Hread [H Hev]]].
  rewrite Hev, received_app. clear Hev.
  destruct (read_result_received _ _ _ _ _ Hread) as [Hrv _].
  apply bind_ret_inv in H. destruct H as [p [Hsplit [H Hev]]].
  rewrite Hev, received_app, split_out_err_events. clear Hev.
  apply split_out_err_ret_inv in Hsplit.
  cbn in H. inversion H; subst out err.
  unfold ret. cbn [events app received flat_map]. rewrite !app_nil_r.
  cbn [app] in Hrv. rewrite <- Hrv, Hsplit.
  exists (fst p), (snd p). now destruct p.
Qed.

(** *** Completion *)

Lemma split_plain {A} (eqb : A -> A -> bool) (sep : A) (x : list A) :
  contains eqb sep x = false -> split eqb sep x = [x].
Proof.
  unfold contains. induction x as [|c x IH]; cbn; [reflexivity|].
  intros H. apply orb_false_iff in H. destruct H as [Hc Hx].
  now rewrite Hc, (IH Hx).
Qed.

Lemma select_names (names : list str) (prefix : str) :
  select (map PyStr names) prefix
  = Ok (filter (fun n => startswith N.eqb n prefix) names).
Proof.
  induction names as [|n names IH]; cbn; [reflexivity|].
  now rewrite IH.
Qed.

Lemma complete_with_names (names : list str) (prefix : str)
      (cursor_pos : Z) (k : kernel) :
  complete_with (PyList (map PyStr names)) prefix cursor_pos k
  = ret {| matches := filter (fun n => startswith N.eqb n prefix) names;
           cursor_start := cursor_pos - len prefix;
           cursor_end := cursor_pos;
           metadata := [];
           complete_status := s "ok" |} k.
Proof.
  unfold complete_with. cbn [iterate lift].
  rewrite bind_ret_l, select_names. cbn [lift]. now rewrite bind_ret_l.
Qed.

Lemma do_complete_span (fuel : nat) (code : str) (cursor_pos : Z)
      (k : kernel) (prefix : str) (names : list str) :
  re_search (slice_to code cursor_pos) = Some prefix ->
  count N.eqb DOT prefix <= 1 ->
  result (_eval fuel (query prefix) k) = Ret (PyList (map PyStr names)) ->
  result (do_complete fuel code cursor_pos k)
  = Ret {| matches :=
             filter (fun n => startswith N.eqb n (name_part prefix)) names;
           cursor_start := cursor_pos - len (name_part prefix);
           cursor_end := cursor_pos;
           metadata := [];
           complete_status := s "ok" |}.
Proof.
  intros Hsearch Hdots. unfold do_complete, query, name_part.
  rewrite Hsearch.
  destruct (contains N.eqb DOT prefix) eqn:Hdot.
  - pose proof (split_length N.eqb DOT prefix) as Hlen.
    apply (contains_count N.eqb) in Hdot.
    destruct (split N.eqb DOT prefix) as [|obj [|name [|f3 fs]]];
      cbn in Hlen; try lia.
    cbn [hd last]. intros Heval.
    rewrite (bind_returns _ _ _ _ Heval). cbn [result].
    now rewrite complete_with_names.
  - rewrite (split_plain _ _ _ Hdot). cbn [last]. intros Heval.
    rewrite (bind_returns _ _ _ _ Heval). cbn [result].
    now rewrite complete_with_names.
Qed.

(** C1 (amended): when [dir] gives a list of names, [do_complete]
    returns those that start with the name being typed, which is the
    text after the dot of what it matched before the cursor, and the span
    from [cursor_pos] less the length of that name to [cursor_pos].  For
    [obj.me] and 6 the span is 4 to 6, and the matches are the names of
    [dir(obj)] that start with [me], [method] among them. *)
Theorem do_complete_replacement_span :
  forall (fuel : nat) (k : kernel) (names : list str),
    (forall (code : str) (cursor_pos : Z) (prefix : str),
        re_search (slice_to code cursor_pos) = Some prefix ->
        count N.eqb DOT prefix <= 1 ->
        result (_eval fuel (query prefix) k)
        = Ret (PyList (map PyStr names)) ->
        result (do_complete fuel code cursor_pos k)
        = Ret {| matches :=
                   filter (fun n => startswith N.eqb n (name_part prefix))
                          names;
                 cursor_start := cursor_pos - len (name_part prefix);
                 cursor_end := cursor_pos;
                 metadata := [];
                 complete_status := s "ok" |})
    /\ (result (_eval fuel (s "dir(obj)") k)
        = Ret (PyList (map PyStr names)) ->
        In (s "method") names ->
        result (do_complete fuel (s "obj.me") 6 k)
        = Ret {| matches :=
                   filter (fun n => startswith N.eqb n (s "me")) names;
                 cursor_start := 4;
                 cursor_end := 6;
                 metadata := [];
                 complete_status := s "ok" |}
        /\ In (s "method")
              (filter (fun n => startswith N.eqb n (s "me")) names)).
Proof.
  intros fuel k names. split.
  - intros code cursor_pos prefix. apply do_complete_span.
  - intros Heval Hin. split.
    + apply (do_complete_span fuel (s "obj.me") 6 k (s "obj.me") names).
      * reflexivity.
      * vm_compute. lia.
      * exact Heval.
    + apply filter_In. split; [exact Hin|reflexivity].
Qed.

Lemma await_done fuel data (k : kernel) :
  endswith Byte.eqb data TERMINATOR = true ->
  await_terminator fuel data k = ret data k.
Proof. intros H. destruct fuel; cbn [await_terminator]; now rewrite H. Qed.

(** A batch that ends with the terminator ends the loop at once; with
    no 0x04 before the terminator the unpacking fails. *)
Lemma read_result_unpack_error fuel retval silent (k : kernel) data :
  result (io ReadAll k) = Ret data ->
  contains Byte.eqb CTRL_D data = true ->
  endswith Byte.eqb data TERMINATOR = true ->
  split_once Byte.eqb CTRL_D (drop_last2 data) = None ->
  result (read_result (S fuel) retval silent k) = Raise ValueError.
Proof.
  intros Hread Hdata Hend Hsplit. rewrite read_result_step.
  rewrite (bind_returns _ _ _ _ Hread). cbn [result]. rewrite Hdata.
  rewrite (bind_returns _ _ _ data) by now rewrite await_done.
  cbn [result]. rewrite await_done by exact Hend. cbn [final ret].
  rewrite (bind_raises _ _ _ ValueError); [reflexivity|].
  unfold split_out_err. now rewrite Hsplit.
Qed.

End Properties.

(** *** Runs on the simulated board *)

Section Simulated.
Context `{RT : Runtime}.

Local Abbreviation M := (@M RT sim).
Local Abbreviation kernel := (@kernel RT sim).

Lemma lands_bind {A B} (m : M A) (f : A -> M B) k a line b' line' :
  lands m k a line ->
  (forall k', board k' = responding line -> lands (f a) k' b' line') ->
  lands (bind m f) k b' line'.
Proof.
  intros [Hr Hb] H. destruct (H _ Hb) as [Hr' Hb']. unfold lands.
  rewrite (bind_returns _ _ _ _ Hr). cbn. now split.
Qed.

Lemma lands_ret {A} (a : A) (k : kernel) line :
  board k = responding line -> lands (ret a) k a line.
Proof. intros H. now split. Qed.

Lemma lands_io (c : call) (k : kernel) line :
  is_read_call c = false ->
  (forall secs, c <> Sleep secs) ->
  board k = responding line -> lands (io c) k [] line.
Proof.
  intros Hc Hs Hb. unfold lands. rewrite io_run.
  unfold respond, sim_board, sim_respond. rewrite Hb. cbn.
  destruct c; try discriminate; try (now split).
  now destruct (Hs secs).
Qed.

Lemma lands_sleep (secs : pyfloat) (k : kernel) line :
  sleep_error secs = None ->
  board k = responding line -> lands (io (Sleep secs)) k [] line.
Proof.
  intros Hs Hb. unfold lands. rewrite io_run.
  unfold respond, sim_board, sim_respond. rewrite Hb. cbn.
  rewrite Hs. now split.
Qed.

Lemma io_upload_delay (c : call) (k : kernel) :
  upload_delay (final (io c k)) = upload_delay k.
Proof. rewrite io_run. now destruct (respond c (board k)) as [[x|e] d]. Qed.


Lemma lands_read_all (k : kernel) x line :
  board k = responding (x :: line) -> lands (io ReadAll) k x line.
Proof.
  intros Hb. unfold lands. rewrite io_run.
  unfold respond, sim_board, sim_respond. rewrite Hb. cbn. now split.
Qed.

Lemma lands_send_stdout msg silent (k : kernel) line :
  board k = responding line -> lands (send_stdout msg silent) k tt line.
Proof.
  intros Hb. unfold send_stdout.
  destruct (silent || is_empty msg); now split.
Qed.

Lemma lands_send_stderr msg silent (k : kernel) line :
  board k = responding line -> lands (send_stderr msg silent) k tt line.
Proof.
  intros Hb. unfold send_stderr.
  destruct (silent || is_empty msg); now split.
Qed.

Lemma lands_is_magic (text : str) (k : kernel) line :
  board k = responding line -> lands (is_magic text) k (magic text) line.
Proof.
  intros Hb. unfold is_magic, magic.
  destruct (startswith N.eqb text (s "%softreset")).
  - eapply lands_bind;
      [apply lands_io; [reflexivity|discriminate|eassumption]|].
    intros k' Hb'. now apply lands_ret.
  - cbn [orb].
    destruct (startswith N.eqb text (s "%upload_delay"));
      [|now apply lands_ret].
    destruct (parse_upload_delay text); now split.
Qed.

Lemma sleeps_none (secs : pyfloat) :
  sleeps secs = true -> sleep_error secs = None.
Proof. unfold sleeps. now destruct (sleep_error secs). Qed.

(** A line goes out when it can be encoded and [time.sleep] takes the
    delay of the kernel; the delay after it is the one before, or the
    one that the line sets. *)
Lemma send_line_settles (text : str) (k : kernel) line :
  board k = responding line ->
  encodable text = true ->
  sleeps (upload_delay k) = true ->
  match requested_delay text with
  | Some secs => sleeps secs
  | None => true
  end = true ->
  lands (send_line text) k tt line
  /\ sleeps (upload_delay (final (send_line text k))) = true.
Proof.
  intros Hb Henc Hs Hset. destruct (magic text) eqn:Hmagic.
  - pose proof (lands_is_magic text k line Hb) as [Hr Hb1].
    rewrite Hmagic in Hr.
    unfold lands, send_line. rewrite (bind_returns _ _ _ true Hr).
    cbn [ret result final]. split; [now split|].
    unfold is_magic, requested_delay in *.
    destruct (startswith N.eqb text (s "%softreset")).
    + destruct (lands_io SoftReset k line eq_refl) as [Hr0 _];
        [discriminate|exact Hb|].
      rewrite (bind_returns _ _ _ [] Hr0). cbn [ret final].
      now rewrite io_upload_delay.
    + destruct (startswith N.eqb text (s "%upload_delay")); [|exact Hs].
      destruct (parse_upload_delay text) as [secs|]; [exact Hset|exact Hs].
  - unfold lands, send_line.
    rewrite (bind_returns _ _ _ false) by now rewrite is_magic_plain.
    rewrite (is_magic_plain _ _ Hmagic). cbn [ret result final].
    unfold encodable in Henc. unfold encode.
    destruct (encode_points text) as [data|]; [|discriminate].
    rewrite (bind_returns _ _ _ data) by reflexivity.
    cbn [lift result final].
    destruct (lands_io (Write data) k line eq_refl) as [Hr1 Hb1];
      [discriminate|exact Hb|].
    rewrite (bind_returns _ _ _ [] Hr1). cbn [result final].
    set (k1 := final (io (Write data) k)) in *.
    assert (Hd1 : upload_delay k1 = upload_delay k)
      by apply io_upload_delay.
    destruct (lands_io (Write CRLF) k1 line eq_refl) as [Hr2 Hb2];
      [discriminate|exact Hb1|].
    rewrite (bind_returns _ _ _ [] Hr2). cbn [result final].
    set (k2 := final (io (Write CRLF) k1)) in *.
    assert (Hd2 : upload_delay k2 = upload_delay k).
    { unfold k2. now rewrite io_upload_delay. }
    rewrite (bind_returns _ _ _ (upload_delay k2)) by reflexivity.
    cbn [get_upload_delay result final].
    assert (Hs2 : sleep_error (upload_delay k2) = None).
    { rewrite Hd2. now apply sleeps_none. }
    destruct (lands_sleep (upload_delay k2) k2 line Hs2 Hb2) as [Hr3 Hb3].
    rewrite (bind_returns _ _ _ [] Hr3). cbn [ret result final].
    split; [now split|].
    now rewrite io_upload_delay, Hd2.
Qed.

Lemma lands_send_lines (lines : list str) :
  forall (k : kernel) line,
    board k = responding line ->
    forallb encodable lines = true ->
    sleeps (upload_delay k) = true ->
    delays_accepted lines = true ->
    lands (send_lines lines) k tt line.
Proof.
  induction lines as [|text rest IH]; intros k line Hb Henc Hs Hset;
    [now apply lands_ret|].
  cbn [forallb] in Henc. apply andb_true_iff in Henc.
  destruct Henc as [Htext Hrest].
  unfold delays_accepted in Hset. cbn [forallb] in Hset.
  apply andb_true_iff in Hset. destruct Hset as [Hhere Hlater].
  destruct (send_line_settles text k line Hb Htext Hs Hhere)
    as [[Hr Hb'] Hs'].
  destruct (IH (final (send_line text k)) line Hb' Hrest Hs' Hlater)
    as [Hr2 Hb2].
  unfold lands. cbn [send_lines].
  rewrite (bind_returns _ _ _ tt Hr). cbn [result final].
  now split.
Qed.

(** [send_code] on the simulated board: the connection, then the
    lines. *)
Lemma lands_send_code (code : str) (k : kernel) line :
  board k = responding line ->
  forallb encodable (splitlines code) = true ->
  sleeps (upload_delay k) = true ->
  delays_accepted (splitlines code) = true ->
  lands (send_code code) k tt line.
Proof.
  intros Hb Henc Hs Hset. unfold send_code.
  destruct (lands_io Connect k line eq_refl) as [Hr Hb1];
    [discriminate|exact Hb|].
  unfold lands. rewrite (bind_returns _ _ _ [] Hr).
  cbn [result final]. apply lands_send_lines; trivial.
  now rewrite io_upload_delay.
Qed.

Lemma concat_drop_bytes (line : list bytes) :
  forall n, List.concat (drop_bytes n line) = skipn n (List.concat line).
Proof.
  induction line as [|x line IH]; intros n; cbn [drop_bytes List.concat].
  - now rewrite skipn_nil.
  - rewrite skipn_app. destruct (Nat.leb_spec n (List.length x)) as [H|H].
    + cbn [List.concat].
      replace (n - List.length x) with 0 by lia. reflexivity.
    + rewrite IH, (skipn_all2 x) by lia. reflexivity.
Qed.

Lemma length_drop_bytes (line : list bytes) :
  forall n, List.length (drop_bytes n line) <= List.length line.
Proof.
  induction line as [|x line IH]; intros n; cbn [drop_bytes];
    [reflexivity|].
  destruct (n <=? List.length x)%nat; cbn [List.length];
    [lia|specialize (IH (n - List.length x)); lia].
Qed.

Lemma occurs_step (t x : bytes) :
  occurs t x
  = startswith Byte.eqb x t
    || match x with [] => false | _ :: x' => occurs t x' end.
Proof. now destruct x. Qed.

Lemma occurs_app (t p q : bytes) : occurs t (p ++ t ++ q) = true.
Proof.
  induction p as [|c p IH].
  - rewrite occurs_step. cbn [app].
    now rewrite (startswith_app _ byte_eqb_true).
  - rewrite occurs_step. cbn [app]. rewrite IH. apply orb_true_r.
Qed.

(** When the terminator occurs in [x ++ ">"] at the end only, a part of
    it that ends with the terminator is all of it. *)
Lemma terminator_once (x p q : bytes) :
  occurs TERMINATOR x = false ->
  x ++ [x3e] = p ++ q ->
  endswith Byte.eqb p TERMINATOR = true ->
  q = [].
Proof.
  intros Hx Hpq Hp. destruct q as [|c q]; [reflexivity|exfalso].
  destruct (@exists_last _ (c :: q)) as [q' [z Hq]]; [discriminate|].
  rewrite Hq, app_assoc in Hpq. apply app_inj_tail in Hpq.
  destruct Hpq as [Hxp _].
  apply (endswith_inv _ byte_eqb_true) in Hp. destruct Hp as [p0 ->].
  rewrite <- app_assoc in Hxp. rewrite Hxp, occurs_app in Hx.
  discriminate.
Qed.

(** The response after its head: [R] ends with the terminator, which
    does not occur in it before, and has a 0x04 before the terminator. *)
Section Framing.
Variable R : bytes.
Hypothesis R_ends : endswith Byte.eqb R TERMINATOR = true.
Hypothesis R_once :
  forall p q, R = p ++ q -> endswith Byte.eqb p TERMINATOR = true -> q = [].
Hypothesis R_split : contains Byte.eqb CTRL_D (drop_last2 R) = true.
Hypothesis tick : sleep_error float_0_1 = None.

Lemma tail_ends (pre Q : bytes) :
  pre ++ Q = R ->
  contains Byte.eqb CTRL_D pre = false ->
  contains Byte.eqb CTRL_D Q = true ->
  endswith Byte.eqb Q TERMINATOR = true.
Proof.
  intros HR Hpre HQ.
  destruct (endswith_inv _ byte_eqb_true _ _ R_ends) as [body Hbody].
  assert (Hrev : rev Q ++ rev pre = x3e :: x04 :: rev body).
  { rewrite <- rev_app_distr, HR, Hbody, rev_app_distr. reflexivity. }
  unfold endswith. destruct (rev Q) as [|c [|d rq]] eqn:E.
  - apply (f_equal (@rev byte)) in E. rewrite rev_involutive in E.
    subst Q. discriminate.
  - apply (f_equal (@rev byte)) in E. rewrite rev_involutive in E.
    subst Q. cbn in Hrev. inversion Hrev. subst c. discriminate.
  - cbn in Hrev. inversion Hrev. reflexivity.
Qed.

Lemma lands_await_done fuel data (k : kernel) line :
  endswith Byte.eqb data TERMINATOR = true ->
  board k = responding line ->
  lands (await_terminator fuel data) k data line.
Proof.
  intros Hend Hb. unfold lands. rewrite (await_done _ _ _ Hend).
  now split.
Qed.

Lemma sim_await (line : list bytes) :
  forall (Q pre : bytes),
    pre ++ Q ++ List.concat line = R ->
    contains Byte.eqb CTRL_D pre = false ->
    contains Byte.eqb CTRL_D Q = true ->
    exists Q' line',
      pre ++ Q' = R
      /\ endswith Byte.eqb Q' TERMINATOR = true
      /\ forall (fuel : nat) (k : kernel),
          board k = responding line ->
          List.length line <= fuel ->
          lands (await_terminator fuel Q) k Q' line'.
Proof.
  induction line as [|y line IH]; intros Q pre HR Hpre HQ.
  - cbn [List.concat] in HR. rewrite app_nil_r in HR.
    pose proof (tail_ends _ _ HR Hpre HQ) as Hend.
    exists Q, []. split; [exact HR|]. split; [exact Hend|].
    intros fuel k Hb _. now apply lands_await_done.
  - destruct (endswith Byte.eqb Q TERMINATOR) eqn:Hend.
    + exists Q, (y :: line). split; [|split; [exact Hend|]].
      * rewrite app_assoc in HR. symmetry in HR.
        assert (Hq : List.concat (y :: line) = []).
        { apply (R_once _ _ HR).
          apply (endswith_inv _ byte_eqb_true) in Hend.
          destruct Hend as [q0 ->]. rewrite app_assoc.
          apply (endswith_app _ byte_eqb_true). }
        now rewrite Hq, app_nil_r in HR.
      * intros fuel k Hb _. now apply lands_await_done.
    + destruct (IH (Q ++ y) pre) as [Q' [line' [HR' [Hend' Hl]]]];
        trivial.
      * cbn [List.concat] in HR. now rewrite <- app_assoc.
      * rewrite (contains_app Byte.eqb), HQ. reflexivity.
      * exists Q', line'. split; [exact HR'|]. split; [exact Hend'|].
        intros fuel k Hb Hfuel; destruct fuel as [|fuel]; cbn [List.length] in Hfuel; [lia|].
        cbn [await_terminator]. rewrite Hend.
        apply (lands_bind _ _ k y line); [now apply lands_read_all|].
        intros k1 Hb1.
        apply (lands_bind _ _ k1 [] line);
          [apply lands_sleep; [exact tick|exact Hb1]|].
        intros k2 Hb2. apply Hl; [exact Hb2|lia].
Qed.

Lemma sim_read_result (line : list bytes) :
  forall (retval : bytes),
    retval ++ List.concat line = R ->
    contains Byte.eqb CTRL_D retval = false ->
    exists line',
      forall (fuel : nat) (silent : bool) (k : kernel),
        board k = responding line ->
        List.length line < fuel ->
        lands (read_result fuel retval silent) k (drop_last2 R) line'.
Proof.
  induction line as [|x line IH]; intros retval HR Hret.
  - exfalso. cbn [List.concat] in HR. rewrite app_nil_r in HR. subst R.
    destruct (endswith_inv _ byte_eqb_true _ _ R_ends) as [body Hbody].
    rewrite Hbody, drop_last2_app in R_split by reflexivity.
    rewrite Hbody, (contains_app Byte.eqb), R_split in Hret.
    discriminate.
  - cbn [List.concat] in HR.
    destruct (contains Byte.eqb CTRL_D x) eqn:Hx.
    + destruct (sim_await line x retval HR Hret Hx)
        as [Q' [line' [HR' [Hend Hl]]]].
      apply (endswith_inv _ byte_eqb_true) in Hend.
      destruct Hend as [q0 Hq0].
      assert (Hdrop : drop_last2 Q' = q0)
        by (rewrite Hq0; now apply drop_last2_app).
      assert (HdropR : drop_last2 R = retval ++ q0).
      { rewrite <- HR', Hq0, app_assoc. now apply drop_last2_app. }
      assert (Hq : contains Byte.eqb CTRL_D q0 = true).
      { rewrite HdropR, (contains_app Byte.eqb), Hret in R_split.
        exact R_split. }
      destruct (split_once_contains Byte.eqb _ _ Hq) as [p Hp].
      exists line'. intros fuel silent k Hb Hfuel; destruct fuel as [|fuel];
        cbn [List.length] in Hfuel; [lia|].
      rewrite read_result_step.
      apply (lands_bind _ _ k x line); [now apply lands_read_all|].
      intros k1 Hb1. rewrite Hx.
      apply (lands_bind _ _ k1 Q' line'); [apply Hl; [exact Hb1|lia]|].
      intros k2 Hb2. rewrite Hdrop.
      apply (lands_bind _ _ k2 p line').
      { unfold split_out_err. rewrite Hp. now apply lands_ret. }
      intros k3 Hb3.
      apply (lands_bind _ _ k3 tt line'); [now apply lands_send_stdout|].
      intros k4 Hb4.
      apply (lands_bind _ _ k4 tt line'); [now apply lands_send_stderr|].
      intros k5 Hb5. rewrite HdropR. now apply lands_ret.
    + destruct (IH (retval ++ x)) as [line' Hl].
      * now rewrite <- app_assoc.
      * rewrite (contains_app Byte.eqb), Hret, Hx. reflexivity.
      * exists line'. intros fuel silent k Hb Hfuel; destruct fuel as [|fuel];
          cbn [List.length] in Hfuel; [lia|].
        rewrite read_result_step.
        apply (lands_bind _ _ k x line); [now apply lands_read_all|].
        intros k1 Hb1. rewrite Hx.
        apply (lands_bind _ _ k1 tt line);
          [now apply lands_send_stdout|].
        intros k2 Hb2.
        apply (lands_bind _ _ k2 [] line);
          [apply lands_sleep; [exact tick|exact Hb2]|].
        intros k3 Hb3. apply Hl; [exact Hb3|lia].
Qed.
End Framing.

Lemma lands_read_head (k : kernel) (line : list bytes) (R : bytes) :
  board k = responding line ->
  List.concat line = b "OK" ++ R ->
  lands (io (ReadUntil (b "OK"))) k (b "OK") (drop_bytes 2 line).
Proof.
  intros Hb Hline. unfold lands. rewrite io_run.
  unfold respond, sim_board, sim_respond. rewrite Hb.
  cbn [fault pending responding sim_answer]. rewrite Hline.
  now split.
Qed.

Lemma run_code_frames (fuel : nat) (code : str) (silent : bool)
      (k : kernel) (batches : list bytes) (out err : bytes) :
  board k = responding batches ->
  forallb encodable (splitlines code) = true ->
  sleeps (upload_delay k) = true ->
  delays_accepted (splitlines code) = true ->
  sleeps float_0_1 = true ->
  List.concat batches = b "OK" ++ out ++ x04 :: err ++ [x04; x3e] ->
  occurs TERMINATOR (out ++ x04 :: err ++ [x04]) = false ->
  List.length batches < fuel ->
  exists o e,
    split_once Byte.eqb CTRL_D (out ++ x04 :: err) = Some (o, e)
    /\ result (run_code fuel code silent k) = Ret (decode o, decode e)
    /\ (contains Byte.eqb CTRL_D out = false -> o = out /\ e = err).
Proof.
  intros Hb Henc Hdelay Hset Htick Hline Honce Hfuel.
  apply sleeps_none in Htick.
  set (R := out ++ x04 :: err ++ [x04; x3e]) in *.
  assert (HR1 : R = (out ++ x04 :: err) ++ TERMINATOR).
  { subst R. now rewrite <- app_assoc. }
  assert (HR2 : R = (out ++ x04 :: err ++ [x04]) ++ [x3e]).
  { subst R. rewrite <- !app_assoc. cbn [app]. now rewrite <- app_assoc. }
  assert (Hends : endswith Byte.eqb R TERMINATOR = true).
  { rewrite HR1. apply (endswith_app _ byte_eqb_true). }
  assert (Honly : forall p q,
             R = p ++ q -> endswith Byte.eqb p TERMINATOR = true -> q = []).
  { intros p q Hpq. rewrite HR2 in Hpq.
    now apply (terminator_once _ _ _ Honce). }
  assert (Hdrop : drop_last2 R = out ++ x04 :: err).
  { rewrite HR1. now apply drop_last2_app. }
  assert (Hsplit : contains Byte.eqb CTRL_D (drop_last2 R) = true).
  { rewrite Hdrop, (contains_app Byte.eqb). cbn. apply orb_true_r. }
  destruct (split_once_contains Byte.eqb _ _ Hsplit) as [[o e] Hoe].
  rewrite Hdrop in Hoe.
  destruct (sim_read_result R Hends Honly Hsplit Htick
                            (drop_bytes 2 batches) [])
    as [line' Hread].
  { rewrite concat_drop_bytes, Hline. reflexivity. }
  { reflexivity. }
  exists o, e. split; [exact Hoe|]. split.
  - refine (proj1 (_ : lands (run_code fuel code silent) k _ line')).
    unfold run_code.
    apply (lands_bind _ _ k tt batches);
      [now apply lands_send_code|].
    intros k1 Hb1.
    apply (lands_bind _ _ k1 [] batches);
      [apply lands_io; [reflexivity|discriminate|exact Hb1]|].
    intros k2 Hb2. unfold read_response.
    apply (lands_bind _ _ k2 (b "OK") (drop_bytes 2 batches));
      [now apply (lands_read_head _ _ R)|].
    intros k3 Hb3.
    apply (lands_bind _ _ k3 (drop_last2 R) line').
    { apply Hread; [exact Hb3|].
      pose proof (length_drop_bytes batches 2). lia. }
    intros k4 Hb4. rewrite Hdrop.
    apply (lands_bind _ _ k4 (o, e) line').
    { unfold split_out_err. rewrite Hoe. now apply lands_ret. }
    intros k5 Hb5. now apply lands_ret.
  - intros Hout.
    change (out ++ x04 :: err) with (out ++ CTRL_D :: err) in Hoe.
    rewrite (split_once_app _ byte_eqb_true _ _ _ Hout) in Hoe.
    now inversion Hoe.
Qed.

(** C3 (amended): on a board that sends [OK], [out], 0x04, [err], 0x04
    and ['>'], in batches of any sizes, where 0x04 followed by ['>']
    occurs only at the end, [run_code] returns the two parts, decoded, of
    [out] 0x04 [err] split at its first 0x04; they are [out] and [err]
    when [out] has no 0x04.  For [hello] and no error the pair is
    [("hello", "")], and for no output and [Traceback...] it is
    [("", "Traceback...")].  This is for a block whose lines can be
    encoded and for delays that [time.sleep] takes: the [upload_delay]
    of the kernel, every delay that an [%upload_delay] line of the block
    sets, and 0.1; with another delay the run ends with the exception
    of [time.sleep]. *)
Theorem run_code_frames_response :
  forall (fuel : nat) (code : str) (silent : bool) (k : kernel)
         (batches : list bytes),
    board k = responding batches ->
    forallb encodable (splitlines code) = true ->
    sleeps (upload_delay k) = true ->
    delays_accepted (splitlines code) = true ->
    sleeps float_0_1 = true ->
    List.length batches < fuel ->
    (forall out err : bytes,
        List.concat batches = b "OK" ++ out ++ x04 :: err ++ [x04; x3e] ->
        occurs TERMINATOR (out ++ x04 :: err ++ [x04]) = false ->
        exists o e,
          split_once Byte.eqb CTRL_D (out ++ x04 :: err) = Some (o, e)
          /\ result (run_code fuel code silent k) = Ret (decode o, decode e)
          /\ (contains Byte.eqb CTRL_D out = false -> o = out /\ e = err))
    /\ (List.concat batches = b "OK" ++ b "hello" ++ [x04; x04; x3e] ->
        result (run_code fuel code silent k) = Ret (s "hello", []))
    /\ (List.concat batches
        = b "OK" ++ x04 :: b "Traceback..." ++ [x04; x3e] ->
        result (run_code fuel code silent k) = Ret ([], s "Traceback...")).
Proof.
  intros fuel code silent k batches Hb Henc Hdelay Hset Htick Hfuel.
  repeat split.
  - intros out err Hline Honce. now apply (run_code_frames _ _ _ _ batches).
  - intros Hline.
    destruct (run_code_frames fuel code silent k batches (b "hello") []
                Hb Henc Hdelay Hset Htick Hline eq_refl Hfuel)
      as [o [e [Hoe [Hres _]]]].
    cbn in Hoe. inversion Hoe; subst o e. exact Hres.
  - intros Hline.
    destruct (run_code_frames fuel code silent k batches []
                (b "Traceback...") Hb Henc Hdelay Hset Htick Hline eq_refl
                Hfuel)
      as [o [e [Hoe [Hres _]]]].
    cbn in Hoe. inversion Hoe; subst o e. exact Hres.
Qed.

End Simulated.

(** ** The properties on sample runs *)

Import Sample.

(** The board goes while the first line is sent. *)
Lemma do_execute_reports_failure_witness :
  result (run_code 1 (s "x = 1") false unplugged)
  = Raise (BoardError (s "unplugged"))
  /\ events (do_execute 1 (s "x = 1") false unplugged)
     = events (run_code 1 (s "x = 1") false unplugged)
       ++ [Stream (s "stderr")
                  (s "No connection to CiruitPython VM: unplugged")]
  /\ result (do_execute 1 (s "x = 1") false unplugged)
     = Ret {| status := s "ok"; reply_execution_count := 0; payload := [];
              user_expressions := [] |}.
Proof.
  split; [reflexivity|].
  destruct (do_execute_reports_failure 1 (s "x = 1") false unplugged
              (BoardError (s "unplugged"))
              (s "No connection to CiruitPython VM: unplugged"))
    as [He [Hr _]];
    [reflexivity|reflexivity|exact (reported_board (s "unplugged"))|].
  split; [exact He|exact Hr].
Defined.

(** The board cannot be opened when [dir()] is asked for. *)
Lemma _eval_raises_on_lost_connection_witness :
  literal_eval [] = Err SyntaxError
  /\ result (_eval 1 (s "dir()") absent) = Raise SyntaxError.
Proof.
  split; [reflexivity|].
  apply (_eval_raises_on_lost_connection 1 (s "dir()") absent (s "absent"));
    [reflexivity|left; reflexivity].
Defined.

(** The write of [do_shutdown] has two bytes. *)
Lemma do_shutdown_counterexample :
  events (do_shutdown false greeting)
  = [Io (Write [x0d; x02]) (Ok []); Io Close (Ok [])]
  /\ events (do_shutdown false greeting)
     <> [Io (Write [x02]) (Ok []); Io Close (Ok [])].
Proof. split; [reflexivity|]. intros H. vm_compute in H. discriminate H. Qed.

(** [a.b.c] with the cursor at its end. *)
Lemma do_complete_unpack_error_witness :
  re_search (slice_to (s "a.b.c") 5) = Some (s "a.b.c")
  /\ do_complete 1 (s "a.b.c") 5 inspected = raise ValueError inspected.
Proof.
  split; [reflexivity|].
  apply (do_complete_unpack_error 1 (s "a.b.c") 5 inspected (s "a.b.c"));
    [reflexivity|vm_compute; lia].
Defined.


(** The trigger after a block of one line. *)
Lemma run_code_trigger_witness :
  exists rest,
    events (run_code 5 (s "x = 1") true greeting)
    = events (send_code (s "x = 1") greeting)
      ++ Io (Write [x0d; x04]) (Ok []) :: rest
    /\ writes rest = [].
Proof.
  destruct (run_code_trigger 5 (s "x = 1") true greeting)
    as [_ [rest [Hev [Hw _]]]]; [reflexivity|].
  exists rest. split; [exact Hev|exact Hw].
Defined.

(** The byte 0x04 is not written on its own. *)
Lemma run_code_trigger_counterexample :
  writes (events (run_code 5 (s "x = 1") true greeting))
  = [b "x = 1"; CRLF; [x0d; x04]]
  /\ ~ In [x04] (writes (events (run_code 5 (s "x = 1") true greeting))).
Proof.
  split; [reflexivity|]. intros H. vm_compute in H.
  destruct H as [H|[H|[H|[]]]]; discriminate H.
Qed.

(** The two magic lines, and two lines sent with the new delay. *)
Lemma upload_delay_magic_witness :
  is_magic (s "%upload_delay 0.5") greeting
  = ret true (with_upload_delay greeting (5%Z, 1))
  /\ calls (events (send_lines [s "x = 1"; s "print(x)"]
                               (with_upload_delay greeting (5%Z, 1))))
     = [Write (b "x = 1"); Write CRLF; Sleep (5%Z, 1);
        Write (b "print(x)"); Write CRLF; Sleep (5%Z, 1)]
  /\ is_magic (s "%upload_delay abc") greeting = ret true greeting.
Proof.
  destruct (upload_delay_magic greeting (5%Z, 1))
    as [Hset [Hsleep Hbad]]; [reflexivity|reflexivity|].
  split; [exact Hset|]. split; [|exact Hbad].
  apply (Hsleep [s "x = 1"; s "print(x)"]
                (with_upload_delay greeting (5%Z, 1))); reflexivity.
Defined.

(** [hello] arrives in four batches, silent or not. *)
Lemma run_code_silent_flag_witness :
  result (run_code 5 (s "x = 1") true greeting)
  = result (run_code 5 (s "x = 1") false greeting)
  /\ exists o e,
      split_once Byte.eqb CTRL_D
        (drop_last2 (received (events (run_code 5 (s "x = 1") true greeting))))
      = Some (o, e)
      /\ s "hello" = decode o /\ [] = decode e.
Proof.
  destruct (run_code_silent_flag 5 (s "x = 1") greeting)
    as [Hres [_ [_ Hpair]]].
  split; [exact Hres|].
  apply (Hpair true (s "hello") []). reflexivity.
Defined.

(** [obj.me] on a board whose [dir(obj)] has three names. *)
Lemma do_complete_replacement_span_witness :
  result (do_complete 5 (s "obj.me") 6 inspected)
  = Ret {| matches := [s "method"]; cursor_start := 4; cursor_end := 6;
           metadata := []; complete_status := s "ok" |}.
Proof.
  destruct (do_complete_replacement_span
              5 inspected [s "__class__"; s "method"; s "value"])
    as [_ Hobj].
  destruct Hobj as [H _]; [reflexivity|right; left; reflexivity|].
  exact H.
Defined.

(** [dir(obj)] includes [method], and the span starts at 4, not at 3. *)
Lemma do_complete_replacement_span_counterexample :
  result (_eval 5 (s "dir(obj)") inspected)
  = Ret (PyList [PyStr (s "__class__"); PyStr (s "method");
                 PyStr (s "value")])
  /\ result (do_complete 5 (s "obj.me") 6 inspected)
     = Ret {| matches := [s "method"]; cursor_start := 4; cursor_end := 6;
              metadata := []; complete_status := s "ok" |}
  /\ result (do_complete 5 (s "obj.me") 6 inspected)
     <> Ret {| matches := [s "method"]; cursor_start := 3; cursor_end := 6;
               metadata := []; complete_status := s "ok" |}.
Proof.
  split; [reflexivity|]. split; [reflexivity|].
  intros H. vm_compute in H. discriminate H.
Qed.

(** [hello] and no error, in four batches. *)
Lemma run_code_frames_response_witness :
  result (run_code 5 (s "print('hello', end='')") false greeting)
  = Ret (s "hello", []).
Proof.
  destruct (run_code_frames_response
              5 (s "print('hello', end='')") false greeting
              [b "OKhel"; b "lo" ++ [x04]; [x04]; b ">"])
    as [_ [Hhello _]];
    [reflexivity|reflexivity|reflexivity|reflexivity|reflexivity
    |vm_compute; lia|].
  apply Hhello. reflexivity.
Defined.

(** The error text starts with ['>'] and the board pauses after it: the
    loop stops there and the unpacking raises. *)
Lemma run_code_frames_response_counterexample :
  List.concat (pending (board prompted))
  = b "OK" ++ b "hello" ++ x04 :: b ">oops" ++ [x04; x3e]
  /\ forall fuel : nat,
      result (run_code fuel (s "x = 1") true prompted)
      <> Ret (decode (b "hello"), decode (b ">oops")).
Proof.
  split; [reflexivity|]. intros [|fuel].
  - intros H. vm_compute in H. discriminate H.
  - assert (H : result (run_code (S fuel) (s "x = 1") true prompted)
                = Raise ValueError).
    { unfold run_code.
      rewrite (bind_returns _ _ _ tt) by reflexivity. cbn [result].
      rewrite (bind_returns _ _ _ []) by reflexivity. cbn [result].
      unfold read_response.
      rewrite (bind_returns _ _ _ (b "OK")) by reflexivity. cbn [result].
      rewrite (bind_raises _ _ _ ValueError); [reflexivity|].
      now apply (read_result_unpack_error _ _ _ _ (b "hello" ++ [x04; x3e])). }
    rewrite H. discriminate.
Qed.

(** ** More properties of the code *)

(** *** Lines and texts *)

Lemma dropwhile_all {A} (p : A -> bool) (x : list A) :
  forallb p x = true -> dropwhile p x = [].
Proof.
  induction x as [|c x IH]; cbn; [reflexivity|].
  intros H. apply andb_true_iff in H. destruct H as [Hc Hx].
  now rewrite Hc, IH.
Qed.

Lemma strip_blank (x : str) :
  forallb isspace x = true -> strip x = [].
Proof. intros H. unfold strip. now rewrite (dropwhile_all _ _ H). Qed.

Lemma forallb_rev {A} (p : A -> bool) (x : list A) :
  forallb p (rev x) = forallb p x.
Proof.
  induction x as [|c x IH]; cbn; [reflexivity|].
  rewrite forallb_app, IH. cbn. rewrite andb_true_r. apply andb_comm.
Qed.

Lemma splitlines_from_inline (n : nat) :
  forall (x cur : str),
    List.length x <= n ->
    forallb inline cur = true ->
    Forall (fun line => forallb inline line = true) (splitlines_from cur x).
Proof.
  induction n as [|n IH]; intros x cur Hlen Hcur.
  - destruct x; [|cbn in Hlen; lia]. cbn.
    destruct cur; constructor; [now rewrite forallb_rev|constructor].
  - destruct x as [|c x]; cbn [splitlines_from].
    + destruct cur; constructor; [now rewrite forallb_rev|constructor].
    + cbn [List.length] in Hlen.
      assert (Hcur' : forallb inline (rev cur) = true)
        by now rewrite forallb_rev.
      destruct (islinebreak c) eqn:Hc.
      * destruct (c =? CR)%N; [destruct x as [|d x]; [|destruct (d =? LF)%N]|];
          constructor; trivial; apply IH; trivial; cbn [List.length] in *; lia.
      * apply IH; [lia|]. cbn. unfold inline at 1. now rewrite Hc.
Qed.

(** X1: no line that [splitlines] gives holds a line boundary, so the
    bytes that [run_code] writes for a line hold no CR and no LF of the
    block. *)
Theorem splitlines_lines_are_inline :
  forall (code line : str),
    In line (splitlines code) -> forallb inline line = true.
Proof.
  intros code line Hin.
  pose proof (splitlines_from_inline (List.length code) code []
                                     (le_n _) eq_refl) as H.
  rewrite Forall_forall in H. now apply H.
Qed.

Lemma splitlines_from_concat (n : nat) :
  forall (x cur : str),
    List.length x <= n ->
    List.concat (splitlines_from cur x) = rev cur ++ filter inline x.
Proof.
  induction n as [|n IH]; intros x cur Hlen.
  - destruct x; [|cbn in Hlen; lia]. cbn.
    destruct cur; cbn; now rewrite ?app_nil_r.
  - destruct x as [|c x]; cbn [splitlines_from].
    + destruct cur; cbn; now rewrite ?app_nil_r.
    + cbn [List.length] in Hlen. cbn [filter]. unfold inline at 1.
      destruct (islinebreak c) eqn:Hc; cbn [negb].
      * destruct (N.eqb_spec c CR) as [->|Hcr].
        -- destruct x as [|d x]; cbn [List.concat].
           ++ reflexivity.
           ++ destruct (N.eqb_spec d LF) as [->|Hlf]; cbn [List.concat].
              ** rewrite IH by (cbn [List.length] in *; lia). reflexivity.
              ** rewrite IH by (cbn [List.length] in *; lia). reflexivity.
        -- cbn [List.concat]. rewrite IH by lia. reflexivity.
      * rewrite IH by lia. cbn [rev]. now rewrite <- app_assoc.
Qed.

(** X2: [splitlines] drops the line boundaries and nothing else: the
    lines put together are the block without its boundary characters, in
    order. *)
Theorem splitlines_keeps_the_text :
  forall code : str,
    List.concat (splitlines code) = filter inline code.
Proof.
  intros code. unfold splitlines.
  now rewrite (splitlines_from_concat (List.length code)).
Qed.

(** *** UTF-8 *)

Lemma to_N_byte_of (n : N) : (n < 256)%N -> Byte.to_N (byte_of n) = n.
Proof.
  intros H. unfold byte_of. rewrite N.mod_small by exact H.
  destruct (Byte.of_N n) eqn:E.
  - now apply Byte.to_of_N.
  - apply Byte.of_N_None_iff in E. lia.
Qed.

Ltac decide_ranges :=
  unfold is_continuation, in_range;
  repeat match goal with
         | |- context [(?x <? ?y)%N] => destruct (N.ltb_spec x y); try lia
         | |- context [(?x <=? ?y)%N] => destruct (N.leb_spec x y); try lia
         | |- context [(?x =? ?y)%N] => destruct (N.eqb_spec x y); try lia
         end;
  cbn [andb orb negb].

Lemma decode_one (c : N) (r : bytes) :
  (c < 0x80)%N -> decode (byte_of c :: r) = c :: decode r.
Proof.
  intros H. cbn [decode]. rewrite to_N_byte_of by lia.
  decide_ranges; first [reflexivity|exfalso; lia].
Qed.

Lemma decode_two (c1 c2 : N) (r : bytes) :
  (0xC2 <= c1 < 0xE0)%N -> (0x80 <= c2 < 0xC0)%N ->
  decode (byte_of c1 :: byte_of c2 :: r)
  = ((c1 - 0xC0) * 64 + (c2 - 0x80))%N :: decode r.
Proof.
  intros H1 H2. cbn [decode]. rewrite !to_N_byte_of by lia.
  decide_ranges; first [reflexivity|exfalso; lia].
Qed.

Lemma decode_three (c1 c2 c3 : N) (r : bytes) :
  (0xE0 <= c1 < 0xF0)%N -> (0x80 <= c2 < 0xC0)%N -> (0x80 <= c3 < 0xC0)%N ->
  (c1 = 0xE0 -> 0xA0 <= c2)%N -> (c1 = 0xED -> c2 < 0xA0)%N ->
  decode (byte_of c1 :: byte_of c2 :: byte_of c3 :: r)
  = ((c1 - 0xE0) * 4096 + (c2 - 0x80) * 64 + (c3 - 0x80))%N :: decode r.
Proof.
  intros H1 H2 H3 Hlow Hsur. cbn [decode]. rewrite !to_N_byte_of by lia.
  decide_ranges; first [reflexivity|exfalso; lia].
Qed.

Lemma decode_four (c1 c2 c3 c4 : N) (r : bytes) :
  (0xF0 <= c1 < 0xF5)%N -> (0x80 <= c2 < 0xC0)%N -> (0x80 <= c3 < 0xC0)%N ->
  (0x80 <= c4 < 0xC0)%N ->
  (c1 = 0xF0 -> 0x90 <= c2)%N -> (c1 = 0xF4 -> c2 < 0x90)%N ->
  decode (byte_of c1 :: byte_of c2 :: byte_of c3 :: byte_of c4 :: r)
  = ((c1 - 0xF0) * 262144 + (c2 - 0x80) * 4096 + (c3 - 0x80) * 64
     + (c4 - 0x80))%N :: decode r.
Proof.
  intros H1 H2 H3 H4 Hlow Hhigh. cbn [decode]. rewrite !to_N_byte_of by lia.
  decide_ranges; first [reflexivity|exfalso; lia].
Qed.

(** The digits of [c] in base 64. *)
Lemma base64_digits (c : N) :
  let d0 := (c mod 64)%N in
  let d1 := ((c / 64) mod 64)%N in
  let d2 := ((c / 4096) mod 64)%N in
  let q3 := (c / 262144)%N in
  (d0 < 64 /\ d1 < 64 /\ d2 < 64
   /\ c = 64 * (c / 64) + d0
   /\ c / 64 = 64 * (c / 4096) + d1
   /\ c / 4096 = 64 * q3 + d2)%N.
Proof.
  cbv zeta.
  assert (E1 : (c / 4096 = c / 64 / 64)%N) by now rewrite N.Div0.div_div.
  assert (E2 : (c / 262144 = c / 4096 / 64)%N) by now rewrite N.Div0.div_div.
  pose proof (N.mod_upper_bound c 64).
  pose proof (N.mod_upper_bound (c / 64) 64).
  pose proof (N.mod_upper_bound (c / 4096) 64).
  pose proof (N.div_mod c 64).
  pose proof (N.div_mod (c / 64) 64).
  pose proof (N.div_mod (c / 4096) 64).
  rewrite E2, E1 in *. repeat split; auto; try (apply H; lia);
    try (apply H0; lia); try (apply H1; lia); try (apply H2; lia);
    try (apply H3; lia); try (apply H4; lia).
Qed.

Lemma encode_decode_point (c : N) (rest : bytes) :
  scalar c = true ->
  exists d,
    encode_points [c] = Some d /\ decode (d ++ rest) = c :: decode rest.
Proof.
  unfold scalar, in_range. intros Hc.
  apply andb_true_iff in Hc. destruct Hc as [Hmax Hsur].
  apply N.leb_le in Hmax. apply negb_true_iff in Hsur.
  destruct (base64_digits c) as [H0 [H1 [H2 [E0 [E1 E2]]]]].
  cbn [encode_points]. unfold in_range. rewrite Hsur.
  assert (Hns : (c < 0xD800 \/ 0xDFFF < c)%N).
  { apply andb_false_iff in Hsur.
    destruct Hsur as [H|H]; [apply N.leb_gt in H|apply N.leb_gt in H]; lia. }
  clear Hsur.
  set (d1 := ((c / 64) mod 64)%N) in *. set (d2 := ((c / 4096) mod 64)%N) in *.
  set (d0 := (c mod 64)%N) in *. set (q1 := (c / 64)%N) in *.
  set (q2 := (c / 4096)%N) in *. set (q3 := (c / 262144)%N) in *.
  clearbody d0 d1 d2 q1 q2 q3.
  destruct (N.ltb_spec c 0x80) as [L1|L1].
  { eexists. split; [reflexivity|]. now apply decode_one. }
  destruct (N.ltb_spec c 0x800) as [L2|L2].
  { eexists. split; [reflexivity|]. cbn [app].
    rewrite decode_two by lia. f_equal. lia. }
  destruct (N.ltb_spec c 0x10000) as [L3|L3].
  { eexists. split; [reflexivity|]. cbn [app].
    rewrite decode_three by lia. f_equal. lia. }
  eexists. split; [reflexivity|]. cbn [app].
  rewrite decode_four by lia. f_equal. lia.
Qed.

Lemma encode_points_cons (c : N) (x : str) :
  encode_points (c :: x)
  = match encode_points [c], encode_points x with
    | Some d, Some rest => Some (d ++ rest)
    | _, _ => None
    end.
Proof.
  cbn [encode_points]. destruct (encode_points x) as [rest|].
  - destruct (c <? 0x80)%N; [reflexivity|].
    destruct (c <? 0x800)%N; [reflexivity|].
    destruct (in_range 0xD800 0xDFFF c); [reflexivity|].
    destruct (c <? 0x10000)%N; reflexivity.
  - destruct (c <? 0x80)%N; [reflexivity|].
    destruct (c <? 0x800)%N; [reflexivity|].
    destruct (in_range 0xD800 0xDFFF c); [reflexivity|].
    destruct (c <? 0x10000)%N; reflexivity.
Qed.

(** X3: a line whose code points are all encodable is sent and, decoded
    as UTF-8, read back unchanged: [decode (encode line) = line]. *)
Theorem utf8_round_trip :
  forall line : str,
    forallb scalar line = true ->
    exists data,
      encode line = Ok data /\ utf8 line = data /\ decode data = line.
Proof.
  intros line Hline.
  assert (H : exists data,
             encode_points line = Some data /\ decode data = line).
  { induction line as [|c line IH]; [now exists []|].
    cbn [forallb] in Hline. apply andb_true_iff in Hline.
    destruct Hline as [Hc Hrest]. destruct (IH Hrest) as [rest [Hr Hd]].
    destruct (encode_decode_point c rest Hc) as [d [He Hdd]].
    exists (d ++ rest). rewrite encode_points_cons, He, Hr.
    split; [reflexivity|]. now rewrite Hdd, Hd. }
  destruct H as [data [He Hd]]. exists data.
  unfold encode, utf8. rewrite He. now repeat split.
Qed.

(** *** The text before the cursor *)

Section Completion.
Context `{RT : Runtime} {dev : Type} `{BD : !Board dev}.

Local Abbreviation M := (@M RT dev).
Local Abbreviation kernel := (@kernel RT dev).

Lemma matched_text_cons (c : codepoint) (y : str) :
  y <> [] -> matched_text (c :: y) = c :: matched_text y.
Proof.
  intros Hy. unfold matched_text, endswith. cbn [rev].
  destruct (rev y) as [|z zs] eqn:E.
  - apply (f_equal (@rev N)) in E. rewrite rev_involutive in E.
    now destruct Hy.
  - cbn [app startswith]. destruct (z =? LF)%N; cbn [andb].
    + destruct y; [now destruct Hy|reflexivity].
    + reflexivity.
Qed.

Lemma dotted_char_not_newline (c : codepoint) :
  dotted_char c = true -> (c =? LF)%N = false.
Proof.
  intros H. destruct (N.eqb_spec c LF) as [->|]; [|reflexivity].
  discriminate H.
Qed.

Lemma dotted_from_shape (y : str) :
  forall in_word : bool,
    dotted_from in_word y = true ->
    forallb dotted_char (matched_text y) = true
    /\ (y = matched_text y \/ y = matched_text y ++ [LF]).
Proof.
  induction y as [|c y IH]; intros in_word H; [now split; [|left]|].
  cbn [dotted_from] in H.
  assert (Hstep : forall w : bool,
             dotted_char c = true -> dotted_from w y = true ->
             forallb dotted_char (matched_text (c :: y)) = true
             /\ (c :: y = matched_text (c :: y)
                 \/ c :: y = matched_text (c :: y) ++ [LF])).
  { intros w Hc Hy. destruct y as [|d y].
    - unfold matched_text, endswith. cbn [rev app startswith].
      rewrite (dotted_char_not_newline _ Hc). cbn [andb forallb].
      rewrite Hc. now split; [|left].
    - rewrite matched_text_cons by discriminate.
      destruct (IH w Hy) as [Hall Hshape]. cbn [forallb].
      rewrite Hc, Hall. split; [reflexivity|].
      destruct Hshape as [E|E]; [left|right]; cbn [app]; now rewrite <- E. }
  destruct (is_word c) eqn:Hw.
  { apply (Hstep true); [|exact H]. unfold dotted_char. now rewrite Hw. }
  destruct ((c =? DOT)%N && in_word) eqn:Hd.
  { apply (Hstep false); [|exact H]. unfold dotted_char.
    apply andb_true_iff in Hd. destruct Hd as [Hd _]. rewrite Hd.
    apply orb_true_r. }
  apply andb_true_iff in H. destruct H as [Hc Hy].
  apply N.eqb_eq in Hc. subst c. destruct y; [|discriminate].
  split; [reflexivity|now right].
Qed.

Lemma re_search_shape (x : str) :
  exists prefix before,
    re_search x = Some prefix
    /\ forallb dotted_char prefix = true
    /\ (x = before ++ prefix \/ x = before ++ prefix ++ [LF]).
Proof.
  induction x as [|c x IH].
  - now exists [], []; repeat split; left.
  - cbn [re_search]. destruct (dotted_from false (c :: x)) eqn:Hd.
    + destruct (dotted_from_shape _ _ Hd) as [Hall Hshape].
      exists (matched_text (c :: x)), []. now repeat split.
    + destruct IH as [prefix [before [Hs [Hall Hshape]]]].
      exists prefix, (c :: before). repeat split; trivial.
      destruct Hshape as [E|E]; [left|right]; cbn [app]; now rewrite <- E.
Qed.

Lemma re_search_length (x prefix : str) :
  re_search x = Some prefix -> List.length prefix <= List.length x.
Proof.
  intros H. destruct (re_search_shape x) as [p [before [Hs [_ Hshape]]]].
  rewrite H in Hs. inversion Hs; subst p.
  destruct Hshape as [E|E]; rewrite E; rewrite ?length_app; lia.
Qed.

Lemma split_field_length {A} (eqb : A -> A -> bool) (sep : A) (x : list A) :
  forall field, In field (split eqb sep x) ->
                List.length field <= List.length x.
Proof.
  induction x as [|c x IH]; intros field Hin; cbn [split] in Hin.
  - destruct Hin as [<-|[]]. reflexivity.
  - destruct (eqb c sep).
    + destruct Hin as [<-|Hin]; cbn [List.length]; [lia|].
      specialize (IH _ Hin). lia.
    + destruct (split eqb sep x) as [|w ws].
      * destruct Hin as [<-|[]]. cbn. lia.
      * destruct Hin as [<-|Hin]; cbn [List.length].
        -- specialize (IH w (or_introl eq_refl)). lia.
        -- specialize (IH field (or_intror Hin)). lia.
Qed.

Lemma complete_with_ret_inv (names : pyval pyfloat) (prefix : str)
      (cursor_pos : Z) (k : kernel) (r : complete_reply) :
  result (complete_with names prefix cursor_pos k) = Ret r ->
  cursor_start r = (cursor_pos - len prefix)%Z
  /\ cursor_end r = cursor_pos
  /\ events (complete_with names prefix cursor_pos k) = [].
Proof.
  unfold complete_with. intros H.
  apply bind_ret_inv in H. destruct H as [l [Hl [H Hev]]]. rewrite Hev.
  apply bind_ret_inv in H. destruct H as [found [Hf [H Hev']]].
  rewrite Hev'. cbn in H. inversion H; subst r. cbn [cursor_start cursor_end].
  repeat split. unfold lift.
  destruct (iterate names); [|discriminate].
  destruct (select _ prefix); [reflexivity|discriminate].
Qed.

(** X4: the pattern of [do_complete] matches in every text, so the branch
    for no match is never taken; what it matches is made of word
    characters and dots and ends the text before the cursor, one final
    newline aside. *)
Theorem re_search_always_matches :
  forall code : str,
    exists prefix before,
      re_search code = Some prefix
      /\ forallb dotted_char prefix = true
      /\ (code = before ++ prefix \/ code = before ++ prefix ++ [LF]).
Proof. exact re_search_shape. Qed.

(** X5: when [do_complete] returns, the span that it gives ends at the
    cursor and starts no later; for a cursor inside the code it starts at
    0 or after. *)
Theorem do_complete_span_is_in_the_code :
  forall (fuel : nat) (code : str) (cursor_pos : Z) (k : kernel)
         (r : complete_reply),
    result (do_complete fuel code cursor_pos k) = Ret r ->
    cursor_end r = cursor_pos
    /\ (cursor_start r <= cursor_end r)%Z
    /\ ((0 <= cursor_pos <= len code)%Z -> (0 <= cursor_start r)%Z).
Proof.
  intros fuel code cursor_pos k r H.
  assert (Hr : exists name : str,
             cursor_start r = (cursor_pos - len name)%Z
             /\ cursor_end r = cursor_pos
             /\ List.length name <= List.length (slice_to code cursor_pos)).
  { unfold do_complete in H. cbv zeta in H.
    destruct (re_search (slice_to code cursor_pos)) as [prefix|] eqn:Hs.
    - pose proof (re_search_length _ _ Hs) as Hlen.
      destruct (contains N.eqb DOT prefix).
      + pose proof (split_field_length N.eqb DOT prefix) as Hfield.
        destruct (split N.eqb DOT prefix) as [|obj [|name [|f3 fs]]];
          try discriminate.
        apply bind_ret_inv in H. destruct H as [names [_ [H _]]].
        apply complete_with_ret_inv in H. destruct H as [Hstart [Hend _]].
        exists name. repeat split; trivial.
        specialize (Hfield name (or_intror (or_introl eq_refl))). lia.
      + apply bind_ret_inv in H. destruct H as [names [_ [H _]]].
        apply complete_with_ret_inv in H. destruct H as [Hstart [Hend _]].
        exists prefix. now repeat split.
    - cbn in H. inversion H; subst r. exists []. cbn. repeat split; lia. }
  destruct Hr as [name [Hstart [Hend Hlen]]]. rewrite Hstart, Hend.
  unfold len. repeat split; try lia.
  intros Hpos. unfold slice_to in Hlen.
  destruct (Z.ltb_spec cursor_pos 0); [lia|].
  rewrite length_firstn in Hlen. unfold len in Hpos. lia.
Qed.

(** X6: a request with at most one dot before the cursor makes one
    evaluation on the board, of [dir(obj)] or of [dir()], and nothing
    more: the calls and messages of [do_complete] are those of [_eval]. *)
Theorem do_complete_asks_the_board_once :
  forall (fuel : nat) (code : str) (cursor_pos : Z) (k : kernel),
    exists prefix,
      re_search (slice_to code cursor_pos) = Some prefix
      /\ (count N.eqb DOT prefix <= 1 ->
          events (do_complete fuel code cursor_pos k)
          = events (_eval fuel (query prefix) k)).
Proof.
  intros fuel code cursor_pos k.
  destruct (re_search_shape (slice_to code cursor_pos))
    as [prefix [_ [Hs _]]].
  exists prefix. split; [exact Hs|]. intros Hdots.
  assert (Hnone : forall names name (k' : kernel),
             events (complete_with names name cursor_pos k') = []).
  { intros names name k'. unfold complete_with, bind, lift.
    destruct (iterate names); [|reflexivity]. cbn.
    destruct (select _ name); reflexivity. }
  unfold do_complete, query. cbv zeta. rewrite Hs.
  destruct (contains N.eqb DOT prefix) eqn:Hdot.
  - pose proof (split_length N.eqb DOT prefix) as Hlen.
    apply (contains_count N.eqb) in Hdot.
    destruct (split N.eqb DOT prefix) as [|obj [|name [|f3 fs]]];
      cbn in Hlen; try lia.
    cbn [hd]. unfold bind.
    destruct (result (_eval fuel (s "dir(" ++ obj ++ s ")") k));
      cbn [events]; trivial.
    now rewrite Hnone, app_nil_r.
  - unfold bind. destruct (result (_eval fuel (s "dir()") k));
      cbn [events]; trivial.
    now rewrite Hnone, app_nil_r.
Qed.

End Completion.

(** *** The attributes of the kernel *)

Section Attributes.
Context `{RT : Runtime} {dev : Type} `{BD : !Board dev}.

Local Abbreviation M := (@M RT dev).
Local Abbreviation kernel := (@kernel RT dev).

Section Kept.
Context {X : Type} (f : kernel -> X).
Hypothesis f_board : forall k d, f (with_board k d) = f k.

Lemma keeps_bind {A B} (m : M A) (g : A -> M B) :
  keeps f m -> (forall a, keeps f (g a)) -> keeps f (bind m g).
Proof.
  intros Hm Hg k. unfold bind.
  destruct (result (m k)) as [a|e|]; cbn [final]; [|apply Hm|apply Hm].
  now rewrite Hg.
Qed.

Lemma keeps_ret {A} (a : A) : keeps f (ret a).
Proof. now intros k. Qed.

Lemma keeps_io (c : call) : keeps f (io c).
Proof. intros k. rewrite io_run. apply f_board. Qed.

Lemma keeps_send_stdout msg silent : keeps f (send_stdout msg silent).
Proof.
  intros k. unfold send_stdout. now destruct (silent || is_empty msg).
Qed.

Lemma keeps_send_stderr msg silent : keeps f (send_stderr msg silent).
Proof.
  intros k. unfold send_stderr. now destruct (silent || is_empty msg).
Qed.

Lemma keeps_split_out_err data : keeps f (split_out_err data).
Proof.
  intros k. unfold split_out_err.
  now destruct (split_once Byte.eqb CTRL_D data).
Qed.

Lemma keeps_try_except {A} (m : M A) (h : exn -> option (M A)) :
  keeps f m ->
  (forall e handler, h e = Some handler -> keeps f handler) ->
  keeps f (try_except m h).
Proof.
  intros Hm Hh k. unfold try_except.
  destruct (result (m k)) as [a|e|]; try apply Hm.
  destruct (h e) as [handler|] eqn:He; [|apply Hm].
  cbn [final]. now rewrite (Hh _ _ He).
Qed.

Lemma keeps_send_lines (lines : list str) :
  (forall line, In line lines -> keeps f (is_magic line)) ->
  keeps f (send_lines lines).
Proof.
  induction lines as [|line rest IH]; intros Hmagic; cbn [send_lines];
    [apply keeps_ret|].
  apply keeps_bind; [|intros _; apply IH; intros l Hl; apply Hmagic; now right].
  unfold send_line. apply keeps_bind; [apply Hmagic; now left|].
  intros [|]; [apply keeps_ret|].
  apply keeps_bind; [unfold lift; now destruct (encode line)|]. intros data.
  apply keeps_bind; [apply keeps_io|]. intros _.
  apply keeps_bind; [apply keeps_io|]. intros _.
  apply keeps_bind; [now intros k|]. intros delay.
  apply keeps_bind; [apply keeps_io|]. intros _. apply keeps_ret.
Qed.

Lemma keeps_await_terminator fuel :
  forall data, keeps f (await_terminator fuel data).
Proof.
  induction fuel as [|fuel IH]; intros data; cbn [await_terminator];
    destruct (endswith Byte.eqb data TERMINATOR); try (now intros k).
  apply keeps_bind; [apply keeps_io|]. intros more.
  apply keeps_bind; [apply keeps_io|]. intros _. apply IH.
Qed.

Lemma keeps_read_result fuel :
  forall retval silent, keeps f (read_result fuel retval silent).
Proof.
  induction fuel as [|fuel IH]; intros retval silent; [now intros k|].
  rewrite read_result_step.
  apply keeps_bind; [apply keeps_io|]. intros data.
  destruct (contains Byte.eqb CTRL_D data).
  - apply keeps_bind; [apply keeps_await_terminator|]. intros data'.
    apply keeps_bind; [apply keeps_split_out_err|]. intros p.
    apply keeps_bind; [apply keeps_send_stdout|]. intros _.
    apply keeps_bind; [apply keeps_send_stderr|]. intros _. apply keeps_ret.
  - apply keeps_bind; [apply keeps_send_stdout|]. intros _.
    apply keeps_bind; [apply keeps_io|]. intros _. apply IH.
Qed.

Lemma keeps_run_code fuel code silent :
  (forall line, In line (splitlines code) -> keeps f (is_magic line)) ->
  keeps f (run_code fuel code silent).
Proof.
  intros Hmagic. unfold run_code, send_code, read_response.
  apply keeps_bind.
  { apply keeps_bind; [apply keeps_io|]. intros _.
    now apply keeps_send_lines. }
  intros _. apply keeps_bind; [apply keeps_io|]. intros _.
  apply keeps_bind; [apply keeps_io|]. intros _.
  apply keeps_bind; [apply keeps_read_result|]. intros retval.
  apply keeps_bind; [apply keeps_split_out_err|]. intros p. apply keeps_ret.
Qed.
End Kept.

Lemma is_magic_keeps_count (line : str) :
  keeps execution_count (is_magic line).
Proof.
  intros k. unfold is_magic.
  destruct (startswith N.eqb line (s "%softreset")).
  - unfold bind. rewrite io_run.
    now destruct (fst (respond SoftReset (board k))).
  - destruct (startswith N.eqb line (s "%upload_delay")); [|reflexivity].
    now destruct (parse_upload_delay line).
Qed.

Lemma is_magic_keeps_delay (line : str) :
  startswith N.eqb line (s "%upload_delay") = false ->
  keeps upload_delay (is_magic line).
Proof.
  intros Hline k. unfold is_magic. rewrite Hline.
  destruct (startswith N.eqb line (s "%softreset")); [|reflexivity].
  unfold bind. rewrite io_run.
  now destruct (fst (respond SoftReset (board k))).
Qed.

Lemma run_code_keeps_count fuel code silent :
  keeps execution_count (run_code fuel code silent).
Proof.
  apply keeps_run_code; [reflexivity|].
  intros line _. apply is_magic_keeps_count.
Qed.

(** X7: [run_code] never changes [execution_count], and it changes
    [upload_delay] only through an [%upload_delay] line: with no such line
    in the block the delay after the run is the delay before, however the
    run ends. *)
Theorem run_code_keeps_attributes :
  forall (fuel : nat) (code : str) (silent : bool) (k : kernel),
    execution_count (final (run_code fuel code silent k)) = execution_count k
    /\ (forallb (fun line => negb (startswith N.eqb line (s "%upload_delay")))
                (splitlines code) = true ->
        upload_delay (final (run_code fuel code silent k)) = upload_delay k).
Proof.
  intros fuel code silent k. split; [apply run_code_keeps_count|].
  intros Hlines. apply (keeps_run_code upload_delay); [reflexivity|].
  intros line Hin. apply is_magic_keeps_delay.
  rewrite forallb_forall in Hlines. specialize (Hlines _ Hin).
  now apply negb_true_iff in Hlines.
Qed.

Lemma execute_body_keeps_count fuel code silent :
  keeps execution_count
        (try_except (bind (run_code fuel code silent) (fun _ => ret tt))
                    execute_handler).
Proof.
  apply keeps_try_except.
  - apply keeps_bind; [apply run_code_keeps_count|].
    intros _. apply keeps_ret.
  - intros e handler He.
    destruct e; unfold execute_handler in He; inversion He;
      apply keeps_send_stderr.
Qed.

(** X8: whenever [do_execute] returns, its reply has status ['ok'], an
    empty payload, no user expressions and the [execution_count] that the
    kernel had before the call. *)
Theorem do_execute_reply_is_ok :
  forall (fuel : nat) (code : str) (silent : bool) (k : kernel)
         (r : execute_reply),
    result (do_execute fuel code silent k) = Ret r ->
    r = {| status := s "ok"; reply_execution_count := execution_count k;
           payload := []; user_expressions := [] |}.
Proof.
  intros fuel code silent k r H. unfold do_execute in H.
  destruct (is_empty (strip code)).
  - cbn in H. now inversion H.
  - apply bind_ret_inv in H. destruct H as [[] [_ [H _]]].
    cbn in H. inversion H.
    now rewrite (execute_body_keeps_count fuel code silent k).
Qed.

(** X9: for code that is not blank, [do_execute] adds nothing to a run of
    [run_code] that returns, and it lets through, with no message, every
    exception of [run_code] other than [BoardError], [SerialException]
    and [KeyboardInterrupt]. *)
Theorem do_execute_follows_run_code :
  forall (fuel : nat) (code : str) (silent : bool) (k : kernel),
    is_empty (strip code) = false ->
    let inner := run_code fuel code silent k in
    let r := do_execute fuel code silent k in
    (forall p, result inner = Ret p ->
               events r = events inner /\ final r = final inner
               /\ exists reply, result r = Ret reply)
    /\ (forall e, result inner = Raise e -> uncaught e ->
                  events r = events inner /\ final r = final inner
                  /\ result r = Raise e).
Proof.
  intros fuel code silent k Hcode inner r. subst inner r.
  unfold do_execute. rewrite Hcode. split.
  - intros p Hp.
    assert (Hbody : try_except (bind (run_code fuel code silent)
                                     (fun _ => ret tt)) execute_handler k
                    = {| events := events (run_code fuel code silent k);
                         result := Ret tt;
                         final := final (run_code fuel code silent k) |}).
    { unfold try_except. rewrite (bind_returns _ _ _ _ Hp). cbn.
      now rewrite app_nil_r. }
    rewrite (bind_returns _ _ _ tt) by now rewrite Hbody.
    rewrite Hbody. cbn. rewrite app_nil_r. repeat split. now eexists.
  - intros e He [Hb [Hs Hk]].
    assert (Hbody : try_except (bind (run_code fuel code silent)
                                     (fun _ => ret tt)) execute_handler k
                    = {| events := events (run_code fuel code silent k);
                         result := Raise e;
                         final := final (run_code fuel code silent k) |}).
    { unfold try_except. rewrite (bind_raises _ _ _ _ He). cbn.
      destruct e; try reflexivity;
        [now destruct (Hb msg)|now destruct (Hs msg)|now destruct Hk]. }
    rewrite (bind_raises _ _ _ e) by now rewrite Hbody.
    rewrite Hbody. cbn. now repeat split.
Qed.

End Attributes.

(** *** Messages and calls *)

Lemma dropwhile_some {A} (p : A -> bool) (x : list A) :
  forallb p x = false ->
  dropwhile p x <> [] /\ forallb p (dropwhile p x) = false.
Proof.
  induction x as [|c x IH]; cbn; [discriminate|].
  destruct (p c) eqn:Hc; cbn.
  - exact IH.
  - intros _. split; [discriminate|]. cbn. now rewrite Hc.
Qed.

Lemma strip_not_blank (x : str) :
  forallb isspace x = false -> is_empty (strip x) = false.
Proof.
  intros H. unfold strip.
  destruct (dropwhile_some _ _ H) as [_ H1].
  rewrite <- forallb_rev in H1.
  destruct (dropwhile_some _ _ H1) as [H2 _].
  destruct (dropwhile isspace (rev (dropwhile isspace x))) as [|c y];
    [now destruct H2|].
  cbn [rev]. now destruct (rev y).
Qed.

Lemma forallb_filter_same {A} (p : A -> bool) (x : list A) :
  forallb p (filter p x) = true.
Proof.
  induction x as [|c x IH]; cbn; [reflexivity|].
  destruct (p c) eqn:Hc; cbn; [now rewrite Hc|exact IH].
Qed.

Section Messages.
Context `{RT : Runtime} {dev : Type} `{BD : !Board dev}.

Local Abbreviation M := (@M RT dev).
Local Abbreviation kernel := (@kernel RT dev).

Lemma bind_events_grow {A B} (m : M A) (f : A -> M B) k :
  exists more, events (bind m f k) = events (m k) ++ more.
Proof.
  unfold bind. destruct (result (m k)); cbn [events].
  - now eexists.
  - exists []. now rewrite app_nil_r.
  - exists []. now rewrite app_nil_r.
Qed.

Lemma try_except_events_grow {A} (m : M A) (h : exn -> option (M A)) k :
  exists more, events (try_except m h k) = events (m k) ++ more.
Proof.
  unfold try_except.
  destruct (result (m k)) as [a|e|];
    try (exists []; now rewrite app_nil_r).
  destruct (h e); [now eexists|exists []; now rewrite app_nil_r].
Qed.

Lemma run_code_connects_first fuel code silent k :
  exists more,
    events (run_code fuel code silent k)
    = Io Connect (fst (respond Connect (board k))) :: more.
Proof.
  unfold run_code, send_code.
  destruct (bind_events_grow
              (bind (io Connect) (fun _ => send_lines (splitlines code)))
              (fun _ => bind (io (Write [x0d; x04]))
                             (fun _ => read_response fuel silent)) k)
    as [m1 ->].
  destruct (bind_events_grow (io Connect)
                             (fun _ => send_lines (splitlines code)) k)
    as [m2 ->].
  rewrite io_run. cbn [events app]. now eexists.
Qed.

(** X10: [do_execute] answers code made of white space only without a
    call to the board and without a message; for any other code its
    first call is [connect]. *)
Theorem do_execute_reaches_the_board_unless_blank :
  forall (fuel : nat) (code : str) (silent : bool) (k : kernel),
    (forallb isspace code = true ->
     events (do_execute fuel code silent k) = []
     /\ final (do_execute fuel code silent k) = k
     /\ exists reply, result (do_execute fuel code silent k) = Ret reply)
    /\ (forallb isspace code = false ->
        exists more,
          events (do_execute fuel code silent k)
          = Io Connect (fst (respond Connect (board k))) :: more).
Proof.
  intros fuel code silent k. unfold do_execute. split; intros Hcode.
  - rewrite (strip_blank _ Hcode). cbn. repeat split. now eexists.
  - rewrite (strip_not_blank _ Hcode).
    destruct (bind_events_grow
                (try_except (bind (run_code fuel code silent)
                                  (fun _ => ret tt)) execute_handler)
                (fun _ => ok_reply) k) as [m1 ->].
    destruct (try_except_events_grow
                (bind (run_code fuel code silent) (fun _ => ret tt))
                execute_handler k) as [m2 ->].
    destruct (bind_events_grow (run_code fuel code silent)
                               (fun _ => ret tt) k) as [m3 ->].
    destruct (run_code_connects_first fuel code silent k) as [m4 ->].
    cbn [app]. now eexists.
Qed.

Lemma try_except_events_all {A} (P : event -> bool) (m : M A)
      (h : exn -> option (M A)) k :
  forallb P (events (m k)) = true ->
  (forall e handler k', h e = Some handler ->
                        forallb P (events (handler k')) = true) ->
  forallb P (events (try_except m h k)) = true.
Proof.
  intros Hm Hh. unfold try_except.
  destruct (result (m k)) as [a|e|]; trivial.
  destruct (h e) as [handler|] eqn:He; trivial.
  cbn [events]. rewrite forallb_app, Hm. now apply (Hh e).
Qed.

Lemma run_code_silent_events fuel code k :
  forallb (fun ev => negb (is_stream ev))
          (events (run_code fuel code true k)) = true.
Proof.
  destruct (quiet_run_code fuel code k) as [_ [_ ->]].
  apply forallb_filter_same.
Qed.

Lemma _eval_silent_events fuel expr k :
  forallb (fun ev => negb (is_stream ev)) (events (_eval fuel expr k)) = true.
Proof.
  unfold _eval. apply bind_events_all.
  - apply try_except_events_all; [apply run_code_silent_events|].
    intros e handler k' He.
    destruct e; unfold eval_handler in He; inversion He; reflexivity.
  - intros p k'. unfold lift. now destruct (literal_eval (fst p)).
Qed.

(** X11: a completion request shows nothing in the notebook: no event of
    [_eval] and of [do_complete] is a stream message, however they
    end. *)
Theorem completion_is_silent :
  forall (fuel : nat) (code expr : str) (cursor_pos : Z) (k : kernel),
    forallb (fun ev => negb (is_stream ev)) (events (_eval fuel expr k)) = true
    /\ forallb (fun ev => negb (is_stream ev))
               (events (do_complete fuel code cursor_pos k)) = true.
Proof.
  intros fuel code expr cursor_pos k. split; [apply _eval_silent_events|].
  assert (Hwith : forall names name (k' : kernel),
             forallb (fun ev => negb (is_stream ev))
                     (events (complete_with names name cursor_pos k')) = true).
  { intros names name k'. unfold complete_with.
    apply bind_events_all; [unfold lift; now destruct (iterate names)|].
    intros l k1.
    apply bind_events_all; [unfold lift; now destruct (select l name)|].
    reflexivity. }
  unfold do_complete. cbv zeta.
  destruct (re_search (slice_to code cursor_pos)) as [prefix|];
    [|reflexivity].
  destruct (contains N.eqb DOT prefix).
  - destruct (split N.eqb DOT prefix) as [|obj [|name [|f3 fs]]];
      try reflexivity.
    apply bind_events_all; [apply _eval_silent_events|].
    intros names k'. apply Hwith.
  - apply bind_events_all; [apply _eval_silent_events|].
    intros names k'. apply Hwith.
Qed.

Lemma bind_events_shown {A B} (m : M A) (f : A -> M B) k :
  Forall shown (events (m k)) ->
  (forall a k', Forall shown (events (f a k'))) ->
  Forall shown (events (bind m f k)).
Proof.
  intros Hm Hf. unfold bind. destruct (result (m k)); cbn [events]; trivial.
  apply Forall_app. split; [exact Hm|apply Hf].
Qed.

Lemma io_shown (c : call) k : Forall shown (events (io c k)).
Proof. rewrite io_run. now repeat constructor. Qed.

Lemma send_stdout_shown msg silent (k : kernel) :
  Forall shown (events (send_stdout msg silent k)).
Proof.
  unfold send_stdout. destruct silent; [constructor|].
  destruct msg as [|c msg]; [constructor|].
  constructor; [|constructor]. split; [now left|discriminate].
Qed.

Lemma send_stderr_shown msg silent (k : kernel) :
  Forall shown (events (send_stderr msg silent k)).
Proof.
  unfold send_stderr. destruct silent; [constructor|].
  destruct msg as [|c msg]; [constructor|].
  constructor; [|constructor]. split; [now right|discriminate].
Qed.

Lemma send_lines_shown (lines : list str) :
  forall k, Forall shown (events (send_lines lines k)).
Proof.
  induction lines as [|line rest IH]; intros k; cbn [send_lines];
    [constructor|].
  apply bind_events_shown; [|intros _ k'; apply IH].
  unfold send_line. apply bind_events_shown.
  { unfold is_magic.
    destruct (startswith N.eqb line (s "%softreset")).
    - apply bind_events_shown; [apply io_shown|]. constructor.
    - destruct (startswith N.eqb line (s "%upload_delay")); [|constructor].
      destruct (parse_upload_delay line); constructor. }
  intros [|] k1; [constructor|].
  apply bind_events_shown; [unfold lift; destruct (encode line); constructor|].
  intros data k2. apply bind_events_shown; [apply io_shown|]. intros _ k3.
  apply bind_events_shown; [apply io_shown|]. intros _ k4.
  apply bind_events_shown; [constructor|]. intros delay k5.
  apply bind_events_shown; [apply io_shown|]. constructor.
Qed.

Lemma await_terminator_shown fuel :
  forall data k, Forall shown (events (await_terminator fuel data k)).
Proof.
  induction fuel as [|fuel IH]; intros data k; cbn [await_terminator];
    destruct (endswith Byte.eqb data TERMINATOR); try constructor.
  apply bind_events_shown; [apply io_shown|]. intros more k1.
  apply bind_events_shown; [apply io_shown|]. intros _ k2. apply IH.
Qed.

Lemma split_out_err_shown data (k : kernel) :
  Forall shown (events (split_out_err data k)).
Proof. rewrite split_out_err_events. constructor. Qed.

Lemma read_result_shown fuel :
  forall retval silent k,
    Forall shown (events (read_result fuel retval silent k)).
Proof.
  induction fuel as [|fuel IH]; intros retval silent k; [constructor|].
  rewrite read_result_step.
  apply bind_events_shown; [apply io_shown|]. intros data k1.
  destruct (contains Byte.eqb CTRL_D data).
  - apply bind_events_shown; [apply await_terminator_shown|]. intros d k2.
    apply bind_events_shown; [apply split_out_err_shown|]. intros p k3.
    apply bind_events_shown; [apply send_stdout_shown|]. intros _ k4.
    apply bind_events_shown; [apply send_stderr_shown|]. constructor.
  - apply bind_events_shown; [apply send_stdout_shown|]. intros _ k2.
    apply bind_events_shown; [apply io_shown|]. intros _ k3. apply IH.
Qed.

Lemma run_code_shown fuel code silent k :
  Forall shown (events (run_code fuel code silent k)).
Proof.
  unfold run_code, send_code, read_response.
  apply bind_events_shown.
  { apply bind_events_shown; [apply io_shown|]. intros _ k1.
    apply send_lines_shown. }
  intros _ k1. apply bind_events_shown; [apply io_shown|]. intros _ k2.
  apply bind_events_shown; [apply io_shown|]. intros _ k3.
  apply bind_events_shown; [apply read_result_shown|]. intros retval k4.
  apply bind_events_shown; [apply split_out_err_shown|]. constructor.
Qed.

(** X12: every message that [do_execute] sends is a stream message on
    stdout or on stderr with a text that is not empty: [send_stdout] and
    [send_stderr] drop the empty texts. *)
Theorem do_execute_sends_no_empty_message :
  forall (fuel : nat) (code : str) (silent : bool) (k : kernel),
    Forall shown (events (do_execute fuel code silent k)).
Proof.
  intros fuel code silent k. unfold do_execute.
  destruct (is_empty (strip code)); [constructor|].
  apply bind_events_shown; [|constructor].
  unfold try_except.
  assert (Hbody : Forall shown (events (bind (run_code fuel code silent)
                                             (fun _ => ret tt) k))).
  { apply bind_events_shown; [apply run_code_shown|]. constructor. }
  destruct (result (bind (run_code fuel code silent) (fun _ => ret tt) k))
    as [a|e|]; trivial.
  destruct (execute_handler e) as [handler|] eqn:He; trivial.
  cbn [events]. apply Forall_app. split; [exact Hbody|].
  destruct e; unfold execute_handler in He; inversion He;
    apply send_stderr_shown.
Qed.

Lemma read_result_ends fuel :
  forall retval silent k rv,
    result (read_result fuel retval silent k) = Ret rv ->
    endswith Byte.eqb
             (received (events (read_result fuel retval silent k)))
             TERMINATOR = true.
Proof.
  induction fuel as [|fuel IH]; intros retval silent k rv H;
    [discriminate|]. rewrite read_result_step in *.
  apply bind_ret_inv in H. destruct H as [data [Hread [H Hev]]].
  rewrite Hev, (io_ret_inv _ _ _ Hread), received_app. clear Hev.
  change (received [Io ReadAll (Ok data)]) with (data ++ []).
  rewrite app_nil_r.
  destruct (contains Byte.eqb CTRL_D data).
  - apply bind_ret_inv in H. destruct H as [data' [Hwait [H Hev]]].
    rewrite Hev, received_app. clear Hev.
    destruct (await_terminator_received _ _ _ _ Hwait) as [Hdata Hends].
    apply bind_ret_inv in H. destruct H as [p [Hsplit [H Hev]]].
    rewrite Hev, received_app, split_out_err_events. clear Hev.
    apply bind_ret_inv in H. destruct H as [u1 [Hout [H Hev]]].
    rewrite Hev, received_app, send_stdout_received. clear Hev.
    apply bind_ret_inv in H. destruct H as [u2 [Herr [H Hev]]].
    rewrite Hev, received_app, send_stderr_received. clear Hev.
    unfold ret. cbn [events app received flat_map].
    now rewrite !app_nil_r, <- Hdata.
  - apply bind_ret_inv in H. destruct H as [u1 [Hout [H Hev]]].
    rewrite Hev, received_app, send_stdout_received. clear Hev.
    apply bind_ret_inv in H. destruct H as [z [Hsleep [H Hev]]].
    rewrite Hev, (io_ret_inv _ _ _ Hsleep), received_app. clear Hev.
    pose proof (IH _ _ _ _ H) as Hends.
    apply (endswith_inv _ byte_eqb_true) in Hends.
    destruct Hends as [body ->]. cbn [app received flat_map].
    rewrite app_assoc. apply (endswith_app _ byte_eqb_true).
Qed.

(** X13: [run_code] returns only when the bytes that its [read_all]
    calls returned end with 0x04 and ['>']. *)
Theorem run_code_returns_after_the_terminator :
  forall (fuel : nat) (code : str) (silent : bool) (k : kernel)
         (p : str * str),
    result (run_code fuel code silent k) = Ret p ->
    endswith Byte.eqb (received (events (run_code fuel code silent k)))
             TERMINATOR = true.
Proof.
  intros fuel code silent k p H. unfold run_code in *.
  apply bind_ret_inv in H. destruct H as [[] [Hsend [H Hev]]].
  rewrite Hev, received_app. clear Hev.
  rewrite (received_none _ (proj2 (proj2 (send_code_writes code k)))).
  apply bind_ret_inv in H. destruct H as [x [Hwrite [H Hev]]].
  rewrite Hev, (io_ret_inv _ _ _ Hwrite), received_app. clear Hev.
  unfold read_response in *.
  apply bind_ret_inv in H. destruct H as [y [Hhead [H Hev]]].
  rewrite Hev, (io_ret_inv _ _ _ Hhead), received_app. clear Hev.
  apply bind_ret_inv in H. destruct H as [rv [Hread [H Hev]]].
  rewrite Hev, received_app. clear Hev.
  pose proof (read_result_ends _ _ _ _ _ Hread) as Hends.
  apply bind_ret_inv in H. destruct H as [q [Hsplit [H Hev]]].
  rewrite Hev, received_app, split_out_err_events. clear Hev.
  unfold ret. cbn [events app received flat_map]. now rewrite !app_nil_r.
Qed.

(** X14: with the board lost, a completion request with at most one dot
    before the cursor does not return: the [SyntaxError] that [_eval]
    gets from [ast.literal_eval] on the empty text goes through
    [do_complete] to its caller. *)
Theorem do_complete_raises_without_the_board :
  forall (fuel : nat) (code : str) (cursor_pos : Z) (k : kernel)
         (prefix msg : str),
    literal_eval [] = Err SyntaxError ->
    re_search (slice_to code cursor_pos) = Some prefix ->
    count N.eqb DOT prefix <= 1 ->
    result (run_code fuel (s "print(" ++ query prefix ++ s ")") true k)
      = Raise (BoardError msg)
    \/ result (run_code fuel (s "print(" ++ query prefix ++ s ")") true k)
      = Raise (SerialException msg) ->
    result (do_complete fuel code cursor_pos k) = Raise SyntaxError.
Proof.
  intros fuel code cursor_pos k prefix msg Hlit Hs Hdots Hrun.
  assert (Heval : result (_eval fuel (query prefix) k) = Raise SyntaxError).
  { unfold _eval, bind, try_except.
    destruct Hrun as [H|H]; rewrite H; cbn; now rewrite Hlit. }
  revert Heval. unfold do_complete, query. cbv zeta. rewrite Hs.
  destruct (contains N.eqb DOT prefix) eqn:Hdot.
  - pose proof (split_length N.eqb DOT prefix) as Hlen.
    apply (contains_count N.eqb) in Hdot.
    destruct (split N.eqb DOT prefix) as [|obj [|name [|f3 fs]]];
      cbn in Hlen; try lia.
    cbn [hd]. intros Heval. now rewrite (bind_raises _ _ _ _ Heval).
  - intros Heval. now rewrite (bind_raises _ _ _ _ Heval).
Qed.

End Messages.

(** *** More runs on the simulated board *)

Section Starved.
Context `{RT : Runtime}.

Local Abbreviation M := (@M RT sim).
Local Abbreviation kernel := (@kernel RT sim).

Lemma bind_result_after {A B} (m : M A) (f : A -> M B) k a :
  result (m k) = Ret a -> result (bind m f k) = result (f a (final (m k))).
Proof. intros H. now rewrite (bind_returns _ _ _ _ H). Qed.

Lemma lands_read_nothing (k : kernel) :
  board k = responding [] -> lands (io ReadAll) k [] [].
Proof.
  intros Hb. unfold lands. rewrite io_run.
  unfold respond, sim_board, sim_respond. rewrite Hb. cbn. now split.
Qed.

Lemma contains_skipn (n : nat) (x : bytes) :
  contains Byte.eqb CTRL_D x = false ->
  contains Byte.eqb CTRL_D (skipn n x) = false.
Proof.
  intros H. rewrite <- (firstn_skipn n x), (contains_app Byte.eqb) in H.
  now apply orb_false_iff in H.
Qed.

Lemma unmarked_drop_bytes (line : list bytes) :
  forall n, unmarked line = true -> unmarked (drop_bytes n line) = true.
Proof.
  unfold unmarked.
  induction line as [|x line IH]; intros n H; cbn [drop_bytes]; trivial.
  cbn [forallb] in H. apply andb_true_iff in H. destruct H as [Hx Hl].
  destruct (n <=? List.length x)%nat; [|now apply IH].
  cbn [forallb]. rewrite Hl, andb_true_r.
  apply negb_true_iff in Hx. apply negb_true_iff. now apply contains_skipn.
Qed.

Lemma lands_read_until (delim : bytes) (k : kernel) (line : list bytes) :
  board k = responding line ->
  unmarked line = true ->
  exists data line',
    lands (io (ReadUntil delim)) k data line' /\ unmarked line' = true.
Proof.
  intros Hb Hline.
  destruct (through delim (List.concat line)) as [n|] eqn:Hn.
  - exists (firstn n (List.concat line)), (drop_bytes n line).
    split; [|now apply unmarked_drop_bytes].
    unfold lands. rewrite io_run.
    unfold respond, sim_board, sim_respond. rewrite Hb.
    cbn [fault pending responding sim_answer]. rewrite Hn. now split.
  - exists (List.concat line), []. split; [|reflexivity].
    unfold lands. rewrite io_run.
    unfold respond, sim_board, sim_respond. rewrite Hb.
    cbn [fault pending responding sim_answer]. rewrite Hn. now split.
Qed.

Lemma read_result_starves (fuel : nat) :
  sleep_error float_0_1 = None ->
  forall (line : list bytes) (retval : bytes) (silent : bool) (k : kernel),
    board k = responding line ->
    unmarked line = true ->
    result (read_result fuel retval silent k) = OutOfFuel.
Proof.
  intros Htick.
  induction fuel as [|fuel IH]; intros line retval silent k Hb Hline;
    [reflexivity|]. rewrite read_result_step.
  assert (Hread : exists data line',
             lands (io ReadAll) k data line'
             /\ contains Byte.eqb CTRL_D data = false
             /\ unmarked line' = true).
  { destruct line as [|x line].
    - exists [], []. repeat split; try reflexivity;
        now apply lands_read_nothing.
    - unfold unmarked in Hline. cbn [forallb] in Hline.
      apply andb_true_iff in Hline. destruct Hline as [Hx Hl].
      apply negb_true_iff in Hx. exists x, line.
      split; [now apply lands_read_all|now split]. }
  destruct Hread as [data [line' [[Hr Hb1] [Hdata Hline']]]].
  rewrite (bind_result_after _ _ _ _ Hr), Hdata.
  set (k1 := final (io ReadAll k)) in *.
  destruct (lands_send_stdout (decode data) silent k1 line' Hb1) as [Hr2 Hb2].
  rewrite (bind_result_after _ _ _ _ Hr2).
  set (k2 := final (send_stdout (decode data) silent k1)) in *.
  destruct (lands_sleep float_0_1 k2 line' Htick Hb2) as [Hr3 Hb3].
  rewrite (bind_result_after _ _ _ _ Hr3).
  now apply (IH line').
Qed.

(** X15: on a board that sends no 0x04 [run_code] never returns: it goes
    on polling, and no bound on the number of polls is enough.  This is
    for a block whose lines can be encoded and for delays that
    [time.sleep] takes: the [upload_delay] of the kernel, every delay
    that an [%upload_delay] line of the block sets, and 0.1; with another
    delay the run ends with the exception of [time.sleep]. *)
Theorem run_code_waits_for_the_marker :
  forall (code : str) (silent : bool) (k : kernel) (line : list bytes),
    board k = responding line ->
    forallb encodable (splitlines code) = true ->
    sleeps (upload_delay k) = true ->
    delays_accepted (splitlines code) = true ->
    sleeps float_0_1 = true ->
    unmarked line = true ->
    forall fuel : nat, result (run_code fuel code silent k) = OutOfFuel.
Proof.
  intros code silent k line Hb Henc Hdelay Hset Htick Hline fuel.
  apply sleeps_none in Htick. unfold run_code.
  assert (Hsend : lands (send_code code) k tt line)
    by now apply lands_send_code.
  destruct Hsend as [Hr1 Hb1]. rewrite (bind_result_after _ _ _ _ Hr1).
  set (k1 := final (send_code code k)) in *.
  destruct (lands_io (Write [x0d; x04]) k1 line eq_refl) as [Hr2 Hb2];
    [discriminate|exact Hb1|].
  rewrite (bind_result_after _ _ _ _ Hr2).
  set (k2 := final (io (Write [x0d; x04]) k1)) in *.
  unfold read_response.
  destruct (lands_read_until (b "OK") k2 line Hb2 Hline)
    as [data [line' [[Hr3 Hb3] Hline']]].
  rewrite (bind_result_after _ _ _ _ Hr3).
  rewrite (bind_out_of_fuel
             _ _ _ (read_result_starves _ Htick _ _ _ _ Hb3 Hline')).
  reflexivity.
Qed.

End Starved.

Section Demux.
Context `{RT : Runtime}.

Local Abbreviation M := (@M RT sim).
Local Abbreviation kernel := (@kernel RT sim).

Lemma sim_read_all_run (k : kernel) (x : bytes) (line : list bytes) :
  board k = responding (x :: line) ->
  io ReadAll k
  = {| events := [Io ReadAll (Ok x)]; result := Ret x;
       final := with_board k (responding line) |}.
Proof.
  intros Hb. rewrite io_run.
  unfold respond, sim_board, sim_respond. now rewrite Hb.
Qed.

Lemma send_stdout_run (msg : str) (k : kernel) :
  send_stdout msg false k
  = {| events := stream_of (s "stdout") msg; result := Ret tt; final := k |}.
Proof. unfold send_stdout, stream_of. now destruct msg. Qed.

Lemma send_stderr_run (msg : str) (k : kernel) :
  send_stderr msg false k
  = {| events := stream_of (s "stderr") msg; result := Ret tt; final := k |}.
Proof. unfold send_stderr, stream_of. now destruct msg. Qed.

Lemma streams_of_stream_of (name text : str) :
  filter is_stream (stream_of name text) = stream_of name text.
Proof. unfold stream_of. now destruct text. Qed.

Lemma streams_none (evs : list event) :
  forallb (fun ev => negb (is_stream ev)) evs = true ->
  filter is_stream evs = [].
Proof.
  induction evs as [|ev evs IH]; cbn; [reflexivity|].
  intros H. apply andb_true_iff in H. destruct H as [Hev Hevs].
  apply negb_true_iff in Hev. now rewrite Hev, IH.
Qed.

Lemma read_result_whole (fuel : nat) (k : kernel) (out err : bytes) :
  board k = responding [out ++ x04 :: err ++ [x04; x3e]] ->
  contains Byte.eqb CTRL_D out = false ->
  read_result (S fuel) [] false k
  = {| events := Io ReadAll (Ok (out ++ x04 :: err ++ [x04; x3e]))
                 :: stream_of (s "stdout") (decode out)
                 ++ stream_of (s "stderr") (decode err);
       result := Ret (out ++ x04 :: err);
       final := with_board k (responding []) |}.
Proof.
  intros Hb Hout.
  set (R := out ++ x04 :: err ++ [x04; x3e]) in *.
  assert (HR : R = (out ++ x04 :: err) ++ TERMINATOR).
  { subst R. now rewrite <- app_assoc. }
  assert (Hends : endswith Byte.eqb R TERMINATOR = true).
  { rewrite HR. apply (endswith_app _ byte_eqb_true). }
  assert (Hdrop : drop_last2 R = out ++ x04 :: err).
  { rewrite HR. now apply drop_last2_app. }
  assert (Hmark : contains Byte.eqb CTRL_D R = true).
  { rewrite HR, !(contains_app Byte.eqb). cbn.
    now rewrite orb_true_r. }
  assert (Hsplit : split_once Byte.eqb CTRL_D (out ++ x04 :: err)
                   = Some (out, err)).
  { now apply (split_once_app _ byte_eqb_true). }
  rewrite read_result_step.
  rewrite (bind_returns _ _ _ R) by now rewrite (sim_read_all_run _ _ _ Hb).
  rewrite (sim_read_all_run _ _ _ Hb). cbn [result events final].
  rewrite Hmark.
  rewrite (bind_returns _ _ _ R) by now rewrite (await_done _ _ _ Hends).
  rewrite (await_done _ _ _ Hends). cbn [ret result events final].
  rewrite Hdrop.
  rewrite (bind_returns _ _ _ (out, err))
    by (unfold split_out_err; now rewrite Hsplit).
  unfold split_out_err. rewrite Hsplit. cbn [ret result events final fst snd].
  rewrite (bind_returns _ _ _ tt) by now rewrite send_stdout_run.
  rewrite send_stdout_run. cbn [result events final].
  rewrite (bind_returns _ _ _ tt) by now rewrite send_stderr_run.
  rewrite send_stderr_run. cbn [ret result events final app].
  now rewrite !app_nil_r.
Qed.

(** X16: when the response comes in one batch and its output part has no
    0x04, a run that is not silent shows the output part on stdout and
    then the error part on stderr, each decoded and left out when empty,
    shows nothing else, and returns the two texts.  This is for a block
    whose lines can be encoded and for delays that [time.sleep] takes:
    the [upload_delay] of the kernel and every delay that an
    [%upload_delay] line of the block sets; with another delay the run
    ends with the exception of [time.sleep]. *)
Theorem run_code_shows_output_then_error :
  forall (fuel : nat) (code : str) (k : kernel) (out err : bytes),
    board k = responding [b "OK" ++ out ++ x04 :: err ++ [x04; x3e]] ->
    forallb encodable (splitlines code) = true ->
    sleeps (upload_delay k) = true ->
    delays_accepted (splitlines code) = true ->
    contains Byte.eqb CTRL_D out = false ->
    filter is_stream (events (run_code (S fuel) code false k))
    = stream_of (s "stdout") (decode out)
      ++ stream_of (s "stderr") (decode err)
    /\ result (run_code (S fuel) code false k)
       = Ret (decode out, decode err).
Proof.
  intros fuel code k out err Hb Henc Hdelay Hset Hout.
  set (line := [b "OK" ++ out ++ x04 :: err ++ [x04; x3e]]) in *.
  assert (Hsend : lands (send_code code) k tt line)
    by now apply lands_send_code.
  assert (Hquiet : filter is_stream (events (send_code code k)) = []).
  { apply streams_none. unfold send_code.
    apply bind_events_all; [now apply io_events_all|].
    intros _ k1. now apply send_lines_events_io. }
  destruct Hsend as [Hr1 Hb1]. unfold run_code.
  rewrite (bind_returns _ _ _ _ Hr1). cbn [events result].
  set (k1 := final (send_code code k)) in *.
  destruct (lands_io (Write [x0d; x04]) k1 line eq_refl) as [Hr2 Hb2];
    [discriminate|exact Hb1|].
  rewrite (bind_returns _ _ _ _ Hr2). cbn [events result].
  assert (Hw : filter is_stream (events (io (Write [x0d; x04]) k1)) = []).
  { apply streams_none. now apply io_events_all. }
  set (k2 := final (io (Write [x0d; x04]) k1)) in *.
  unfold read_response.
  destruct (lands_read_head k2 line (out ++ x04 :: err ++ [x04; x3e]) Hb2)
    as [Hr3 Hb3].
  { subst line. cbn [List.concat]. now rewrite app_nil_r. }
  rewrite (bind_returns _ _ _ _ Hr3). cbn [events result].
  assert (Hh : filter is_stream (events (io (ReadUntil (b "OK")) k2)) = []).
  { apply streams_none. now apply io_events_all. }
  set (k3 := final (io (ReadUntil (b "OK")) k2)) in *.
  assert (Hb3' : board k3 = responding [out ++ x04 :: err ++ [x04; x3e]])
    by exact Hb3.
  pose proof (read_result_whole fuel k3 out err Hb3' Hout) as Hread.
  assert (Hsplit : split_once Byte.eqb CTRL_D (out ++ x04 :: err)
                   = Some (out, err))
    by now apply (split_once_app _ byte_eqb_true).
  rewrite (bind_returns _ _ _ (out ++ x04 :: err)) by now rewrite Hread.
  rewrite Hread. cbn [result events final].
  rewrite (bind_returns _ _ _ (out, err))
    by (unfold split_out_err; now rewrite Hsplit).
  unfold split_out_err. rewrite Hsplit. cbn [ret result events final fst snd].
  split; [|reflexivity].
  rewrite !filter_app, Hquiet, Hw, Hh. cbn [app filter is_stream].
  rewrite !filter_app, !streams_of_stream_of. cbn [filter].
  now rewrite !app_nil_r.
Qed.

End Demux.

Section Magic.
Context `{RT : Runtime} {dev : Type} `{BD : !Board dev}.

Local Abbreviation kernel := (@kernel RT dev).

Lemma split_app {A} (eqb : A -> A -> bool) (sep : A) (u v : list A) :
  (forall x y, eqb x y = true <-> x = y) ->
  contains eqb sep u = false ->
  split eqb sep (u ++ sep :: v) = u :: split eqb sep v.
Proof.
  intros eqb_true. unfold contains.
  induction u as [|c u IH]; cbn [app split existsb]; intros Hno.
  - replace (eqb sep sep) with true; [reflexivity|].
    symmetry. now apply eqb_true.
  - apply orb_false_iff in Hno. destruct Hno as [Hc Hu].
    now rewrite Hc, (IH Hu).
Qed.

Lemma upload_delay_not_softreset (name rest : str) :
  startswith N.eqb name (s "%upload_delay") = true ->
  startswith N.eqb (name ++ rest) (s "%softreset") = false
  /\ startswith N.eqb (name ++ rest) (s "%upload_delay") = true.
Proof.
  intros Hname.
  destruct (startswith_inv N.eqb N.eqb_eq _ _ Hname) as [q ->].
  rewrite <- app_assoc. split; reflexivity.
Qed.

(** X17: of a line that starts with [%upload_delay] the argument is the
    second field between single spaces, whatever follows the name of the
    magic or the argument: [float] of that field becomes the delay, and
    the line changes nothing when [float] rejects it.  A line without a
    space changes nothing either.  Each of these lines is handled, with
    no call to the board. *)
Theorem upload_delay_reads_second_field :
  forall (name arg rest : str) (k : kernel),
    startswith N.eqb name (s "%upload_delay") = true ->
    contains N.eqb SPACE name = false ->
    contains N.eqb SPACE arg = false ->
    let set_or_keep :=
      match float_of_str arg with
      | Some f => ret true (with_upload_delay k f)
      | None => ret true k
      end in
    is_magic name k = ret true k
    /\ is_magic (name ++ SPACE :: arg) k = set_or_keep
    /\ is_magic (name ++ SPACE :: arg ++ SPACE :: rest) k = set_or_keep.
Proof.
  intros name arg rest k Hname Hplain Harg. cbv zeta.
  split; [|split].
  - destruct (upload_delay_not_softreset name [] Hname) as [Hs Hu].
    rewrite app_nil_r in Hs, Hu.
    unfold is_magic, parse_upload_delay. rewrite Hs, Hu.
    now rewrite (split_plain _ _ _ Hplain).
  - destruct (upload_delay_not_softreset name (SPACE :: arg) Hname)
      as [Hs Hu].
    unfold is_magic, parse_upload_delay. rewrite Hs, Hu.
    rewrite (split_app _ _ _ _ N.eqb_eq Hplain).
    rewrite (split_plain _ _ _ Harg). cbn [nth_error].
    now destruct (float_of_str arg).
  - destruct (upload_delay_not_softreset
                name (SPACE :: arg ++ SPACE :: rest) Hname) as [Hs Hu].
    unfold is_magic, parse_upload_delay. rewrite Hs, Hu.
    rewrite (split_app _ _ _ _ N.eqb_eq Hplain).
    rewrite (split_app _ _ _ _ N.eqb_eq Harg). cbn [nth_error].
    now destruct (float_of_str arg).
Qed.

End Magic.

Section Rejected.
Context `{RT : Runtime}.

Local Abbreviation kernel := (@kernel RT sim).


End Rejected.

(** *** The further properties on sample runs *)

(** The second line of a block of two. *)
Lemma splitlines_lines_are_inline_witness :
  In (s "print(x)") (splitlines (s "x = 1" ++ [LF] ++ s "print(x)"))
  /\ forallb inline (s "print(x)") = true.
Proof.
  assert (Hin : In (s "print(x)")
                   (splitlines (s "x = 1" ++ [LF] ++ s "print(x)")))
    by (right; left; reflexivity).
  split; [exact Hin|].
  exact (splitlines_lines_are_inline _ _ Hin).
Defined.

(** A line with characters of one, two, three and four bytes. *)
Lemma utf8_round_trip_witness :
  exists data,
    encode [0x63; 0xE9; 0x20AC; 0x1F600]%N = Ok data
    /\ decode data = [0x63; 0xE9; 0x20AC; 0x1F600]%N.
Proof.
  destruct (utf8_round_trip [0x63; 0xE9; 0x20AC; 0x1F600]%N)
    as [data [He [_ Hd]]]; [reflexivity|].
  exists data. split; [exact He|exact Hd].
Defined.

(** [obj.me] with the cursor at its end. *)
Lemma do_complete_span_is_in_the_code_witness :
  exists r,
    result (do_complete 5 (s "obj.me") 6 inspected) = Ret r
    /\ cursor_end r = 6%Z
    /\ (0 <= cursor_start r <= cursor_end r)%Z.
Proof.
  set (r := {| matches := [s "method"]; cursor_start := 4; cursor_end := 6;
               metadata := []; complete_status := s "ok" |}).
  destruct (do_complete_span_is_in_the_code 5 (s "obj.me") 6 inspected r)
    as [Hend [Hle Hpos]]; [reflexivity|].
  exists r. split; [reflexivity|]. split; [exact Hend|].
  split; [apply Hpos; vm_compute; split; discriminate|exact Hle].
Defined.

(** The one evaluation for [obj.me] is that of [dir(obj)]. *)
Lemma do_complete_asks_the_board_once_witness :
  events (do_complete 5 (s "obj.me") 6 inspected)
  = events (_eval 5 (s "dir(obj)") inspected).
Proof.
  destruct (do_complete_asks_the_board_once 5 (s "obj.me") 6 inspected)
    as [prefix [Hs Hev]].
  assert (Hp : prefix = s "obj.me").
  { vm_compute in Hs. inversion Hs. reflexivity. }
  subst prefix. apply Hev. vm_compute. lia.
Defined.

(** A block without an [%upload_delay] line. *)
Lemma run_code_keeps_attributes_witness :
  execution_count (final (run_code 5 (s "x = 1") false greeting)) = 0%Z
  /\ upload_delay (final (run_code 5 (s "x = 1") false greeting))
     = (6%Z, 2).
Proof.
  destruct (run_code_keeps_attributes 5 (s "x = 1") false greeting)
    as [Hcount Hdelay].
  split; [exact Hcount|]. apply Hdelay. reflexivity.
Defined.

(** A cell that prints [hello]. *)
Lemma do_execute_reply_is_ok_witness :
  exists r,
    result (do_execute 5 (s "x = 1") false greeting) = Ret r
    /\ status r = s "ok" /\ reply_execution_count r = 0%Z.
Proof.
  set (r := {| status := s "ok"; reply_execution_count := 0; payload := [];
               user_expressions := [] |}).
  assert (Hr : result (do_execute 5 (s "x = 1") false greeting) = Ret r)
    by reflexivity.
  pose proof (do_execute_reply_is_ok 5 (s "x = 1") false greeting r Hr) as E.
  exists r. split; [exact Hr|]. rewrite E. split; reflexivity.
Defined.

(** The unpacking error of a response that stops early goes through
    [do_execute]. *)
Lemma do_execute_follows_run_code_witness :
  result (run_code 5 (s "x = 1") false prompted) = Raise ValueError
  /\ result (do_execute 5 (s "x = 1") false prompted) = Raise ValueError
  /\ events (do_execute 5 (s "x = 1") false prompted)
     = events (run_code 5 (s "x = 1") false prompted).
Proof.
  destruct (do_execute_follows_run_code 5 (s "x = 1") false prompted)
    as [_ Hraise]; [reflexivity|].
  destruct (Hraise ValueError) as [Hev [_ Hres]];
    [reflexivity|repeat split; intros; discriminate|].
  split; [reflexivity|]. split; [exact Hres|exact Hev].
Defined.

(** A cell of two spaces and a newline, and a cell with code. *)
Lemma do_execute_reaches_the_board_unless_blank_witness :
  events (do_execute 5 [32; 32; 10]%N false greeting) = []
  /\ exists more,
      events (do_execute 5 (s "x = 1") false greeting)
      = Io Connect (Ok []) :: more.
Proof.
  split.
  - destruct (do_execute_reaches_the_board_unless_blank
                5 [32; 32; 10]%N false greeting) as [Hblank _].
    destruct Hblank as [Hev _]; [reflexivity|exact Hev].
  - destruct (do_execute_reaches_the_board_unless_blank
                5 (s "x = 1") false greeting) as [_ Hcode].
    destruct Hcode as [more Hev]; [reflexivity|].
    exists more. exact Hev.
Defined.

(** The four batches of [greeting] end with the terminator. *)
Lemma run_code_returns_after_the_terminator_witness :
  result (run_code 5 (s "x = 1") false greeting) = Ret (s "hello", [])
  /\ endswith Byte.eqb
              (received (events (run_code 5 (s "x = 1") false greeting)))
              TERMINATOR = true.
Proof.
  assert (Hr : result (run_code 5 (s "x = 1") false greeting)
               = Ret (s "hello", [])) by reflexivity.
  split; [exact Hr|].
  exact (run_code_returns_after_the_terminator _ _ _ _ _ Hr).
Defined.

(** [obj.me] with the board absent. *)
Lemma do_complete_raises_without_the_board_witness :
  result (do_complete 5 (s "obj.me") 6 absent) = Raise SyntaxError.
Proof.
  apply (do_complete_raises_without_the_board
           5 (s "obj.me") 6 absent (s "obj.me") (s "absent"));
    [reflexivity|reflexivity|vm_compute; lia|left; reflexivity].
Defined.

(** [hello] and then nothing more. *)
Lemma run_code_waits_for_the_marker_witness :
  result (run_code 3 (s "x = 1") false mute) = OutOfFuel
  /\ result (run_code 1000 (s "x = 1") false mute) = OutOfFuel.
Proof.
  split;
    apply (run_code_waits_for_the_marker
             (s "x = 1") false mute [b "OK"; b "hello"]); reflexivity.
Defined.

(** [hello] on stdout, then the traceback on stderr. *)
Lemma run_code_shows_output_then_error_witness :
  filter is_stream (events (run_code 1 (s "x = 1") false failed))
  = [Stream (s "stdout") (s "hello"); Stream (s "stderr") (s "Traceback...")]
  /\ result (run_code 1 (s "x = 1") false failed)
     = Ret (s "hello", s "Traceback...").
Proof.
  destruct (run_code_shows_output_then_error
              0 (s "x = 1") failed (b "hello") (b "Traceback..."))
    as [Hshown Hres];
    [reflexivity|reflexivity|reflexivity|reflexivity|reflexivity|].
  split; [exact Hshown|exact Hres].
Defined.

(** [%upload_delayed 0.5 s] sets the delay to 0.5. *)
Lemma upload_delay_reads_second_field_witness :
  is_magic (s "%upload_delayed 0.5 s") greeting
  = ret true (with_upload_delay greeting (5%Z, 1))
  /\ is_magic (s "%upload_delayed") greeting = ret true greeting.
Proof.
  destruct (upload_delay_reads_second_field
              (s "%upload_delayed") (s "0.5") (s "s") greeting)
    as [Hbare [_ Hrest]]; [reflexivity|reflexivity|reflexivity|].
  split; [exact Hrest|exact Hbare].
Defined.

